(** * Wildfire log viewer: the escape-code interpreter, the colour model,
      the frame store and the request layer of [webviz/ansi.py] and
      [webviz/server.py], embedded as Rocq functions.

    Conventions of the embedding.
    - A Python [str] is a [string]; a character is a code point below 256.
    - A Python [int] is a [Z].
    - A call that may raise returns a [Py.result]: [Ok v] or [Raise e].
    - The process-wide [SESSION] object is threaded explicitly through the
      request handlers. *)

From Stdlib Require Import ZArith QArith Qround List Bool Ascii String Lia Arith.
From Stdlib Require Import HexString DecimalString.
From Stdlib Require Import FunInd Sorted DecimalPos.
From Equations Require Import Equations.
Import ListNotations.

Set Warnings "-register-all".

Open Scope string_scope.
Open Scope Z_scope.

(** ** Python values used throughout *)

Module Py.

(** Exceptions that the modelled code can raise or let escape. *)
Inductive exn :=
| FileNotFoundError (path : string)
| UnicodeDecodeError
| JSONDecodeError
| AttributeError
| TypeError
| ValueError
| OSError
| IndexError
| HTTPException (status_code : Z) (detail : string).

Inductive result (A : Type) :=
| Ok (v : A)
| Raise (e : exn).
Arguments Ok {A} v.
Arguments Raise {A} e.

Definition bind {A B} (m : result A) (k : A -> result B) : result B :=
  match m with
  | Ok v => k v
  | Raise e => Raise e
  end.

Definition is_ok {A} (m : result A) : bool :=
  match m with Ok _ => true | Raise _ => false end.

(** [l[i]] on a Python list: negative indices count from the end, and an
    index outside [-len .. len-1] raises [IndexError]. *)
Definition index {A} (l : list A) (i : Z) : result A :=
  let n := Z.of_nat (List.length l) in
  let j := if i <? 0 then i + n else i in
  if (j <? 0) || (n <=? j) then Raise IndexError
  else match nth_error l (Z.to_nat j) with
       | Some v => Ok v
       | None => Raise IndexError
       end.

(** [str(n)] of an int *)
Definition str_int (n : Z) : string :=
  DecimalString.NilZero.string_of_int (Z.to_int n).

(** [range(a, b)] *)
Definition range (a b : Z) : list Z :=
  map (fun k => a + Z.of_nat k) (seq 0 (Z.to_nat (b - a))).

(** [[f(x) for x in l]] where [f] may raise: the first exception escapes. *)
Fixpoint mapM {A B} (f : A -> result B) (l : list A) : result (list B) :=
  match l with
  | [] => Ok []
  | x :: l' => bind (f x) (fun y => bind (mapM f l') (fun ys => Ok (y :: ys)))
  end.

(** A dict literal is kept as its list of items; [d.get(k, default)]. *)
Fixpoint dict_get {V} (d : list (Z * V)) (k : Z) (default : V) : V :=
  match d with
  | [] => default
  | (k', v) :: d' => if k =? k' then v else dict_get d' k default
  end.

(** [d.update(e)]: the items of [e] win over those of [d]. *)
Definition dict_update {V} (d e : list (Z * V)) : list (Z * V) := e ++ d.

End Py.

Notation "x <- m ;; k" := (Py.bind m (fun x => k))
  (at level 61, m at next level, right associativity).

(** ** Characters and strings *)

Module Str.

Definition code (c : ascii) : Z := Z.of_nat (nat_of_ascii c).

Definition ESC : ascii := ascii_of_nat 27.

(** The class [[0-9]] of a regular expression, and [\d] below code 256. *)
Definition is_digit (c : ascii) : bool :=
  (48 <=? code c) && (code c <=? 57).

(** [str.isspace] and the class [\s], below code 256: tab to carriage
    return, the four separators 28..31, space, NEL and the no-break space. *)
Definition is_space (c : ascii) : bool :=
  let n := code c in
  ((9 <=? n) && (n <=? 13)) || ((28 <=? n) && (n <=? 32))
  || (n =? 133) || (n =? 160).

(** [str.lower] on one character, below code 256. *)
Definition lower_char (c : ascii) : ascii :=
  let n := code c in
  if ((65 <=? n) && (n <=? 90))
     || ((192 <=? n) && (n <=? 222) && negb (n =? 215))
  then ascii_of_nat (Z.to_nat (n + 32)) else c.

Fixpoint lower (s : string) : string :=
  match s with
  | "" => ""
  | String c s' => String (lower_char c) (lower s')
  end.

Fixpoint lstrip (s : string) : string :=
  match s with
  | String c s' => if is_space c then lstrip s' else s
  | "" => ""
  end.

(** [rstrip]: a character is dropped when it and everything after it is
    white space. *)
Fixpoint rstrip (s : string) : string :=
  match s with
  | "" => ""
  | String c s' =>
      match rstrip s' with
      | "" => if is_space c then "" else String c ""
      | r => String c r
      end
  end.

Definition strip (s : string) : string := rstrip (lstrip s).

Fixpoint startswith (s p : string) : bool :=
  match p, s with
  | "", _ => true
  | String a p', String b s' => Ascii.eqb a b && startswith s' p'
  | String _ _, "" => false
  end.

(** [p in s] for strings. *)
Fixpoint contains (s p : string) : bool :=
  startswith s p ||
  match s with
  | "" => false
  | String _ s' => contains s' p
  end.

(** [s.split(sep)] for a one-character separator: never empty. *)
Fixpoint split (sep : ascii) (s : string) : list string :=
  match s with
  | "" => [""]
  | String c s' =>
      if Ascii.eqb c sep then "" :: split sep s'
      else match split sep s' with
           | [] => [String c ""]
           | w :: ws => String c w :: ws
           end
  end.

(** [sep.join(l)] *)
Fixpoint join (sep : string) (l : list string) : string :=
  match l with
  | [] => ""
  | [x] => x
  | x :: l' => x ++ sep ++ join sep l'
  end.

(** [str.isdigit] on the strings met here, whose characters come from the
    class [[0-9;]]: non-empty and all decimal digits. *)
Fixpoint all_digits (s : string) : bool :=
  match s with
  | "" => true
  | String c s' => is_digit c && all_digits s'
  end.

Definition isdigit (s : string) : bool :=
  match s with
  | "" => false
  | _ => all_digits s
  end.

(** [int(s)] for a string of decimal digits, as the number it writes; the
    interpreter's limit on the length of such a string is not modelled. *)
Fixpoint int_acc (acc : Z) (s : string) : Z :=
  match s with
  | "" => acc
  | String c s' => int_acc (10 * acc + (code c - 48)) s'
  end.

Definition int (s : string) : Z := int_acc 0 s.

(** The longest prefix whose characters satisfy [p], and what follows. *)
Fixpoint span (p : ascii -> bool) (s : string) : string * string :=
  match s with
  | "" => ("", "")
  | String c s' =>
      if p c then let (a, b) := span p s' in (String c a, b)
      else ("", s)
  end.

(** [s[i:j]] for [0 <= i <= j]. *)
Definition slice (s : string) (i j : nat) : string := substring i (j - i) s.

(** [s[i:]] *)
Fixpoint drop (i : nat) (s : string) : string :=
  match i, s with
  | O, _ => s
  | S i', String _ s' => drop i' s'
  | S _, "" => ""
  end.

End Str.

(** ** Colour model *)

(** [BASIC_COLORS] *)
Definition BASIC_COLORS : list (Z * string) :=
  [ (30, "#000000"); (31, "#b22222"); (32, "#228b22"); (33, "#b8860b");
    (34, "#1e90ff"); (35, "#9932cc"); (36, "#20b2aa"); (37, "#bfbfbf");
    (90, "#808080"); (91, "#ff4d4d"); (92, "#59c659"); (93, "#ffd24d");
    (94, "#4d88ff"); (95, "#cc66ff"); (96, "#33cccc"); (97, "#ffffff") ].

(** [BASIC_BG]: the basic colours shifted by ten, then the bright
    backgrounds 100..107 written over them. *)
Definition BASIC_BG : list (Z * string) :=
  Py.dict_update
    (map (fun '(c, col) => (c + 10, col)) BASIC_COLORS)
    [ (100, "#555555"); (101, "#ff6b6b"); (102, "#6bd36b"); (103, "#ffe27a");
      (104, "#7aa7ff"); (105, "#da8cff"); (106, "#66e0e0"); (107, "#f7f7f7") ].

(** The format specification [:02x]: lower-case hexadecimal, padded with
    zeros to two characters, the sign counted in the width. *)
Definition hex_digits (v : Z) : string :=
  match v with
  | Z0 => "0"
  | Zpos p => HexString.Raw.of_pos p ""
  | Zneg p => HexString.Raw.of_pos p ""
  end.

Definition format_02x (v : Z) : string :=
  let d := hex_digits v in
  if v <? 0 then String "-" d
  else match d with
       | String _ "" => String "0" d
       | _ => d
       end.

Definition to_255 (v : Z) : Z := if v =? 0 then 0 else 55 + v * 40.

(** The table [LUT] of [xterm_256_to_hex]. *)
Definition LUT : list (Z * string) :=
  [ (0, "#000000"); (1, "#800000"); (2, "#008000"); (3, "#808000");
    (4, "#000080"); (5, "#800080"); (6, "#008080"); (7, "#c0c0c0");
    (8, "#808080"); (9, "#ff0000"); (10, "#00ff00"); (11, "#ffff00");
    (12, "#0000ff"); (13, "#ff00ff"); (14, "#00ffff"); (15, "#ffffff") ].

Definition xterm_256_to_hex (n : Z) : string :=
  if n <? 16 then Py.dict_get LUT n "#cccccc"
  else if (16 <=? n) && (n <=? 231) then
    let n := n - 16 in
    let r := (n / 36) mod 6 in
    let g := (n / 6) mod 6 in
    let b := n mod 6 in
    "#" ++ format_02x (to_255 r) ++ format_02x (to_255 g) ++ format_02x (to_255 b)
  else if (232 <=? n) && (n <=? 255) then
    let v := 8 + (n - 232) * 10 in
    "#" ++ format_02x v ++ format_02x v ++ format_02x v
  else "#cccccc".

(** ** Escape-code interpreter *)

Record Style := { bold : bool; fg : option string; bg : option string }.

Record Span := { text : string; style : Style }.

(** [Style()] *)
Definition default_style : Style := {| bold := false; fg := None; bg := None |}.

(** *** The pattern [SGR_RE]: ESC, a bracket, characters of [[0-9;]], m *)

Definition sgr_param (c : ascii) : bool := Str.is_digit c || Ascii.eqb c ";".

(** [SGR_RE.match] at the head of [s]: group 1 and the text after the match.
    The class is greedy and excludes the final m, so the longest run of
    parameters is the only candidate. *)
Definition match_sgr (s : string) : option (string * string) :=
  match s with
  | String e (String b rest) =>
      if Ascii.eqb e Str.ESC && Ascii.eqb b "[" then
        let (codes, r) := Str.span sgr_param rest in
        match r with
        | String c r' => if Ascii.eqb c "m" then Some (codes, r') else None
        | "" => None
        end
      else None
  | _ => None
  end.

(** A match object: [m.start()], [m.end()], [m.group(1)]. *)
Record Match := { m_start : nat; m_end : nat; group1 : string }.

Lemma span_length p s a b :
  Str.span p s = (a, b) -> String.length s = (String.length a + String.length b)%nat.
Proof.
  revert a b; induction s as [|c s IH]; simpl; intros a b H.
  - inversion H; reflexivity.
  - destruct (p c).
    + destruct (Str.span p s) as [a' b'] eqn:E. inversion H; subst; simpl.
      rewrite (IH a' b eq_refl). reflexivity.
    + inversion H; subst; reflexivity.
Qed.

Lemma match_sgr_length s codes rest :
  match_sgr s = Some (codes, rest) ->
  String.length s = (3 + String.length codes + String.length rest)%nat.
Proof.
  unfold match_sgr. destruct s as [|e [|b r]]; try discriminate.
  destruct (Ascii.eqb e Str.ESC && Ascii.eqb b "["); try discriminate.
  destruct (Str.span sgr_param r) as [a t] eqn:E.
  destruct t as [|c t']; try discriminate.
  destruct (Ascii.eqb c "m"); try discriminate.
  intros H; inversion H; subst. apply span_length in E. simpl in *. lia.
Qed.

(** The scrutinee of a [with] clause together with the equation that the
    termination proofs use. *)
Definition inspect {A} (a : A) : {b : A | a = b} := exist _ a eq_refl.

(** [SGR_RE.finditer] on the text [s] that starts at position [pos] of the
    line: the matches from left to right, none overlapping another. *)
Equations? finditer_from (pos : nat) (s : string) : list Match
  by wf (String.length s) lt :=
  finditer_from pos "" := [];
  finditer_from pos (String c s') with inspect (match_sgr (String c s')) := {
    | exist _ (Some (codes, rest)) _ =>
        let e := (pos + 3 + String.length codes)%nat in
        {| m_start := pos; m_end := e; group1 := codes |} :: finditer_from e rest;
    | exist _ None _ => finditer_from (S pos) s' }.
Proof.
  match goal with
  | H : _ = Some (codes, rest) |- _ =>
      change (match_sgr (String c s') = Some (codes, rest)) in H;
      apply match_sgr_length in H; simpl in *; lia
  end.
Qed.

Definition finditer (s : string) : list Match := finditer_from 0 s.

(** [SGR_RE.sub("", s)], as [visual_len] of [ansi_to_image] strips a line:
    every match is dropped, every other character is kept. *)
Equations? sgr_strip (s : string) : string by wf (String.length s) lt :=
  sgr_strip "" := "";
  sgr_strip (String c s') with inspect (match_sgr (String c s')) := {
    | exist _ (Some (codes, rest)) _ => sgr_strip rest;
    | exist _ None _ => String c (sgr_strip s') }.
Proof.
  match goal with
  | H : _ = Some (codes, rest) |- _ =>
      change (match_sgr (String c s') = Some (codes, rest)) in H;
      apply match_sgr_length in H; simpl in *; lia
  end.
Qed.

(** *** The interpreter's loop state: [spans], [cur] and [buf] *)

Record PState := { spans : list Span; cur : Style; buf : list string }.

Definition set_cur (st : PState) (c : Style) : PState :=
  {| spans := spans st; cur := c; buf := buf st |}.

(** The closure [flush] *)
Definition flush (st : PState) : PState :=
  match buf st with
  | [] => st
  | _ :: _ =>
      {| spans := spans st ++
                  [ {| text := Str.join "" (buf st);
                       style := {| bold := bold (cur st); fg := fg (cur st);
                                   bg := bg (cur st) |} |} ];
         cur := cur st;
         buf := [] |}
  end.

(** [buf.append(chunk)] *)
Definition buf_append (st : PState) (chunk : string) : PState :=
  {| spans := spans st; cur := cur st; buf := buf st ++ [chunk] |}.

(** [d.get(c, default)] where the default is an optional colour. *)
Definition color_get (d : list (Z * string)) (c : Z) (default : option string)
  : option string :=
  Py.dict_get (map (fun '(k, v) => (k, Some v)) d) c default.

Definition in_range (lo c hi : Z) : bool := (lo <=? c) && (c <=? hi).

(** The [while j < len(parts)] loop, on the parameters from [parts[j]] on. *)
Fixpoint interp_parts (parts : list Z) (st : PState) : PState :=
  match parts with
  | [] => st
  | c :: rest =>
      if c =? 0 then
        interp_parts rest (set_cur (flush st) default_style)
      else if c =? 1 then
        let st := flush st in
        interp_parts rest
          (set_cur st {| bold := true; fg := fg (cur st); bg := bg (cur st) |})
      else if in_range 30 c 37 || in_range 90 c 97 then
        let st := flush st in
        interp_parts rest
          (set_cur st {| bold := bold (cur st);
                         fg := color_get BASIC_COLORS c (fg (cur st));
                         bg := bg (cur st) |})
      else if in_range 40 c 47 || in_range 100 c 107 then
        let st := flush st in
        interp_parts rest
          (set_cur st {| bold := bold (cur st); fg := fg (cur st);
                         bg := color_get BASIC_BG c (bg (cur st)) |})
      else
        match rest with
        | p :: n :: rest' =>
            if (c =? 38) && (p =? 5) then
              let st := flush st in
              interp_parts rest'
                (set_cur st {| bold := bold (cur st);
                               fg := Some (xterm_256_to_hex n);
                               bg := bg (cur st) |})
            else if (c =? 48) && (p =? 5) then
              let st := flush st in
              interp_parts rest'
                (set_cur st {| bold := bold (cur st); fg := fg (cur st);
                               bg := Some (xterm_256_to_hex n) |})
            else interp_parts rest st
        | _ => interp_parts rest st
        end
  end.

(** [[int(p) for p in codes.split(";") if p.isdigit()]] *)
Definition parse_parts (codes : string) : list Z :=
  map Str.int (filter Str.isdigit (Str.split ";" codes)).

(** One round of [for m in SGR_RE.finditer(s)], on the state and [i]. *)
Definition on_match (s : string) (acc : PState * nat) (m : Match) : PState * nat :=
  let (st, i) := acc in
  let chunk := Str.slice s i (m_start m) in
  let st := match chunk with "" => st | _ => buf_append st chunk end in
  let codes := group1 m in
  let st :=
    if String.eqb codes "" || String.eqb codes "0" then
      set_cur (flush st) default_style
    else interp_parts (parse_parts codes) st in
  (st, m_end m).

Definition init_state : PState := {| spans := []; cur := default_style; buf := [] |}.

(** What follows the loop: the trailing text, the last [flush]. *)
Definition finish (s : string) (acc : PState * nat) : list Span :=
  let (st, i) := acc in
  let st := if (i <? String.length s)%nat then buf_append st (Str.drop i s) else st in
  spans (flush st).

Definition parse_ansi_to_spans (s : string) : list Span :=
  finish s (fold_left (on_match s) (finditer s) (init_state, 0%nat)).

(** ** Markup rendering *)

Definition dquote : string := String (ascii_of_nat 34) "".

(** [html.escape(s)], quotes included. *)
Fixpoint html_escape (s : string) : string :=
  match s with
  | "" => ""
  | String c s' =>
      (if Ascii.eqb c "&" then "&amp;"
       else if Ascii.eqb c "<" then "&lt;"
       else if Ascii.eqb c ">" then "&gt;"
       else if Ascii.eqb c (ascii_of_nat 34) then "&quot;"
       else if Ascii.eqb c "'" then "&#x27;"
       else String c "") ++ html_escape s'
  end.

Definition is_linebreak (c : ascii) : bool :=
  let n := Str.code c in
  ((10 <=? n) && (n <=? 13)) || ((28 <=? n) && (n <=? 30)) || (n =? 133).

(** [str.splitlines]: [after_cr] tells that the previous character was a
    carriage return, whose line feed belongs to the same line break. *)
Fixpoint splitlines_from (after_cr : bool) (s : string) : list string :=
  match s with
  | "" => []
  | String c s' =>
      if after_cr && Ascii.eqb c (ascii_of_nat 10) then splitlines_from false s'
      else if is_linebreak c then
        "" :: splitlines_from (Ascii.eqb c (ascii_of_nat 13)) s'
      else match splitlines_from false s' with
           | [] => [String c ""]
           | l :: ls => String c l :: ls
           end
  end.

Definition splitlines (s : string) : list string := splitlines_from false s.

(** A non-empty optional colour is truthy. *)
Definition truthy_color (c : option string) : option string :=
  match c with
  | Some "" => None
  | _ => c
  end.

Definition span_html (sp : Span) : string :=
  let txt := html_escape (text sp) in
  let style_bits : list string :=
    ((match truthy_color (fg (style sp)) with
      | Some c => [("color:" ++ c)%string] | None => [] end) ++
     (match truthy_color (bg (style sp)) with
      | Some c => [("background-color:" ++ c)%string] | None => [] end) ++
     (if bold (style sp) then ["font-weight:bold"] else []))%list in
  let style_attr :=
    match style_bits with
    | [] => ""
    | _ => " style=" ++ dquote ++ Str.join ";" style_bits ++ dquote
    end in
  "<span" ++ style_attr ++ ">" ++ txt ++ "</span>".

Definition ansi_to_html (s : string) : string :=
  Str.join "<br/>"
    (map (fun line =>
            match Str.join "" (map span_html (parse_ansi_to_spans line)) with
            | "" => "&nbsp;"
            | parts => parts
            end)
         (splitlines s)).

(** ** Frame headers and metrics *)

Module Re.

(** The patterns of this program never need to give characters back: each
    repetition is followed by a character outside its class, so the
    longest repetition is the only one that can lead to a match. *)

(** A literal under [re.I]: characters are compared up to case. *)
Fixpoint lit (p s : string) : option string :=
  match p, s with
  | "", _ => Some s
  | String a p', String b s' =>
      if Ascii.eqb (Str.lower_char a) (Str.lower_char b) then lit p' s' else None
  | String _ _, "" => None
  end.

(** A literal compared exactly. *)
Fixpoint lit_exact (p s : string) : option string :=
  match p, s with
  | "", _ => Some s
  | String a p', String b s' => if Ascii.eqb a b then lit_exact p' s' else None
  | String _ _, "" => None
  end.

(** [(?:p)?] and [c?] *)
Definition opt (f : string -> option string) (s : string) : string :=
  match f s with
  | Some r => r
  | None => s
  end.

(** [\s*] *)
Definition ws0 (s : string) : string := snd (Str.span Str.is_space s).

(** [\s+] *)
Definition ws1 (s : string) : option string :=
  match Str.span Str.is_space s with
  | ("", _) => None
  | (_, r) => Some r
  end.

(** [(\d+)]: the group and the rest. *)
Definition digits1 (s : string) : option (string * string) :=
  match Str.span Str.is_digit s with
  | ("", _) => None
  | (d, r) => Some (d, r)
  end.

Definition and_then {A B} (m : option A) (k : A -> option B) : option B :=
  match m with
  | Some v => k v
  | None => None
  end.

(** [re.search]: the first position at which [f] matches. *)
Fixpoint search {A} (f : string -> option A) (s : string) : option A :=
  match f s with
  | Some v => Some v
  | None => match s with
            | "" => None
            | String _ s' => search f s'
            end
  end.

End Re.

Notation "x <-? m ;; k" := (Re.and_then m (fun x => k))
  (at level 61, m at next level, right associativity).
Notation "' p <-? m ;; k" := (Re.and_then m (fun x => match x with p => k end))
  (at level 61, p pattern, m at next level, right associativity).

Definition ESC_str : string := String Str.ESC "".

(** The part shared by both header patterns:
    [^(?:\x1b\[1m)?Step\s+(\d+)\x1b\[0m?:\s*] *)
Definition hdr_prefix (s : string) : option (string * string) :=
  let s := Re.opt (Re.lit (ESC_str ++ "[1m")) s in
  s <-? Re.lit "Step" s ;;
  s <-? Re.ws1 s ;;
  '(step, s) <-? Re.digits1 s ;;
  s <-? Re.lit (ESC_str ++ "[0") s ;;
  let s := Re.opt (Re.lit "m") s in
  s <-? Re.lit ":" s ;;
  Some (step, Re.ws0 s).

(** Variant A: [... Burning\s*cells\s*=\s*(\d+)] *)
Definition hdr_variant_A (s : string) : option (string * string) :=
  '(step, s) <-? hdr_prefix s ;;
  s <-? Re.lit "Burning" s ;;
  s <-? Re.lit "cells" (Re.ws0 s) ;;
  s <-? Re.lit "=" (Re.ws0 s) ;;
  '(n, _) <-? Re.digits1 (Re.ws0 s) ;;
  Some (step, n).

(** Variant B: [... Burning\s*=\s*(\d+)] *)
Definition hdr_variant_B (s : string) : option (string * string) :=
  '(step, s) <-? hdr_prefix s ;;
  s <-? Re.lit "Burning" s ;;
  s <-? Re.lit "=" (Re.ws0 s) ;;
  '(n, _) <-? Re.digits1 (Re.ws0 s) ;;
  Some (step, n).

Definition STEP_HDR_VARIANTS : list (string -> option (string * string)) :=
  [hdr_variant_A; hdr_variant_B].

(** [is_step_header]: the first variant that matches decides. *)
Fixpoint first_match (rxs : list (string -> option (string * string)))
  (line : string) : option (Z * Z) :=
  match rxs with
  | [] => None
  | rx :: rxs' =>
      match rx (Str.strip line) with
      | Some (g1, g2) => Some (Str.int g1, Str.int g2)
      | None => first_match rxs' line
      end
  end.

Definition is_step_header (line : string) : option (Z * Z) :=
  first_match STEP_HDR_VARIANTS line.

Definition is_some {A} (o : option A) : bool :=
  match o with Some _ => true | None => false end.

(** [lines[s:e]] for [0 <= s <= e] *)
Definition list_slice {A} (l : list A) (s e : nat) : list A :=
  firstn (e - s) (skipn s l).

Fixpoint enumerate_from {A} (i : nat) (l : list A) : list (nat * A) :=
  match l with
  | [] => []
  | x :: l' => (i, x) :: enumerate_from (S i) l'
  end.

(** [zip(idx[:-1], idx[1:])] *)
Fixpoint consecutive (idx : list nat) : list (nat * nat) :=
  match idx with
  | a :: ((b :: _) as rest) => (a, b) :: consecutive rest
  | _ => []
  end.

Definition split_frames_by_headers (raw_text : string) : list string :=
  let lines := splitlines raw_text in
  let idx := map fst (filter (fun '(_, l) => is_some (is_step_header l))
                             (enumerate_from 0 lines)) in
  match idx with
  | [] => []
  | _ =>
      let idx := (idx ++ [List.length lines])%list in
      flat_map (fun '(s, e) =>
                  match Str.rstrip (Str.join (String (ascii_of_nat 10) "")
                                             (list_slice lines s e)) with
                  | "" => []
                  | block => [block]
                  end)
               (consecutive idx)
  end.

(** The three lists of the dict that [parse_metrics] returns. *)
Record Metrics := {
  burning_cells : list (option Z);
  natural_burnouts : list (option Z);
  extinguished_cum : list (option Z)
}.

(** [re.search(r"(\d+)", s)] *)
Definition search_number (s : string) : option Z :=
  option_map (fun '(d, _) => Str.int d) (Re.search Re.digits1 s).

(** The tail [\s*=\s*(\d+)] and the tail [\s*=?\s*(\d+)] *)
Definition eq_number (s : string) : option Z :=
  s <-? Re.lit_exact "=" (Re.ws0 s) ;;
  '(d, _) <-? Re.digits1 (Re.ws0 s) ;;
  Some (Str.int d).

Definition opt_eq_number (s : string) : option Z :=
  let s := Re.opt (Re.lit_exact "=") (Re.ws0 s) in
  '(d, _) <-? Re.digits1 (Re.ws0 s) ;;
  Some (Str.int d).

(** [re.search(r"extinguished\s*=\s*(\d+)", s)] *)
Definition search_extinguished (s : string) : option Z :=
  Re.search (fun t => t <-? Re.lit_exact "extinguished" t ;; eq_number t) s.

(** [re.search(r"(?:natural|natural burnouts)\s*=?\s*(\d+)", s)]: at each
    position the first alternative is tried with the tail, then the second. *)
Definition search_natural (s : string) : option Z :=
  Re.search (fun t =>
               match (t <-? Re.lit_exact "natural" t ;; opt_eq_number t) with
               | Some v => Some v
               | None => t <-? Re.lit_exact "natural burnouts" t ;; opt_eq_number t
               end) s.

(** [x = v if m else x] *)
Definition or_keep (m old : option Z) : option Z :=
  match m with
  | Some v => Some v
  | None => old
  end.

(** One round of [for ln in lines[1:6]] on the pair [(nb, ex)]. *)
Definition scan_line (acc : option Z * option Z) (ln : string)
  : option Z * option Z :=
  let (nb, ex) := acc in
  let s := Str.lower (Str.strip ln) in
  let nb := if Str.startswith s "natural burnouts"
            then or_keep (search_number s) nb else nb in
  let ex := if Str.startswith s "extinguished by agents"
            then or_keep (search_number s) ex else ex in
  let ex := if Str.contains s "extinguished="
            then or_keep (search_extinguished s) ex else ex in
  let nb := if Str.contains s "natural burnouts" || Str.contains s "natural="
            then or_keep (search_natural s) nb else nb in
  (nb, ex).

Definition block_metrics (block : string) : option Z * option Z * option Z :=
  let lines := splitlines block in
  let b := match lines with
           | [] => None
           | l0 :: _ => option_map snd (is_step_header l0)
           end in
  let '(nb, ex) := fold_left scan_line (list_slice lines 1 6) (None, None) in
  (b, nb, ex).

Definition parse_metrics (frames : list string) : Metrics :=
  let ms := map block_metrics frames in
  {| burning_cells := map (fun m => fst (fst m)) ms;
     natural_burnouts := map (fun m => snd (fst m)) ms;
     extinguished_cum := map snd ms |}.

(** ** Index files *)

(** The values that [json.loads] builds.  Of a float only its truth value is
    kept: no path of the program uses more. *)
Inductive json :=
| JNull
| JBool (b : bool)
| JInt (z : Z)
| JFloat (nonzero : bool)
| JStr (s : string)
| JList (l : list json)
| JDict (items : list (string * json)).

Module Json.

(** [bool(v)] *)
Definition truthy (v : json) : bool :=
  match v with
  | JNull => false
  | JBool b => b
  | JInt z => negb (z =? 0)
  | JFloat nz => nz
  | JStr s => negb (String.eqb s "")
  | JList l => match l with [] => false | _ => true end
  | JDict d => match d with [] => false | _ => true end
  end.

(** [a or b] *)
Definition or (a b : json) : json := if truthy a then a else b.

Fixpoint lookup (d : list (string * json)) (k : string) : option json :=
  match d with
  | [] => None
  | (k', v) :: d' => if String.eqb k k' then Some v else lookup d' k
  end.

(** [obj.get(k)]: only a dict has the method. *)
Definition get (obj : json) (k : string) : Py.result json :=
  match obj with
  | JDict d => Py.Ok (match lookup d k with Some v => v | None => JNull end)
  | _ => Py.Raise Py.AttributeError
  end.

(** [k in obj] and [obj[k]] for an object that [get] accepted. *)
Definition has_key (obj : json) (k : string) : bool :=
  match obj with
  | JDict d => is_some (lookup d k)
  | _ => false
  end.

(** The integer behind a value that [isinstance(v, int)] accepts: a bool
    is an int in Python. *)
Definition as_int (v : json) : option Z :=
  match v with
  | JInt z => Some z
  | JBool b => Some (if b then 1 else 0)
  | _ => None
  end.

Definition is_number (v : json) : bool :=
  match v with
  | JInt _ | JBool _ | JFloat _ => true
  | _ => false
  end.

(** [a - b]: an int when both sides are ints, a float when one is a float
    and the other a number, [TypeError] otherwise.  The truth value of the
    float is not looked at afterwards, and an int too large for a float is
    outside the model. *)
Definition sub (a b : json) : Py.result json :=
  match as_int a, as_int b with
  | Some x, Some y => Py.Ok (JInt (x - y))
  | _, _ =>
      if is_number a && is_number b then Py.Ok (JFloat true)
      else Py.Raise Py.TypeError
  end.

End Json.

Record IndexEntry := { offset : Z; length : Z }.

(** The body of the loop of [load_index_jsonl] on one parsed line: the entry
    to append, if any.  [obj.get] has no effect, so it does not matter that
    the operands of [or] are all evaluated here.  A [True] or [False] that
    passes [isinstance(_, int)] is stored as 1 or 0. *)
Definition entry_of (obj : json) : Py.result (option IndexEntry) :=
  o1 <- Json.get obj "offset" ;;
  o2 <- Json.get obj "start" ;;
  let off := Json.or (Json.or o1 o2) (JInt 0) in
  l1 <- Json.get obj "length" ;;
  l2 <- Json.get obj "len" ;;
  let ln := Json.or l1 l2 in
  ln <- (match ln with
         | JNull =>
             if Json.has_key obj "end" then
               e <- Json.get obj "end" ;; Json.sub e off
             else Py.Ok ln
         | _ => Py.Ok ln
         end) ;;
  match Json.as_int off, Json.as_int ln with
  | Some o, Some l => Py.Ok (Some {| offset := o; length := l |})
  | _, _ => Py.Ok None
  end.

(** [for line in f]: the lines of a text, each with its line feed. *)
Fixpoint iter_lines (s : string) : list string :=
  match s with
  | "" => []
  | String c s' =>
      if Ascii.eqb c (ascii_of_nat 10) then String c "" :: iter_lines s'
      else match iter_lines s' with
           | [] => [String c ""]
           | l :: ls => String c l :: ls
           end
  end.

(** ** Frame store *)

Record FrameSource := {
  ans_path : string;
  _indexed : bool;
  _frames : list string;
  _entries : list IndexEntry
}.

(** [len(src)] *)
Definition source_len (src : FrameSource) : Z :=
  if _indexed src then Z.of_nat (List.length (_entries src))
  else Z.of_nat (List.length (_frames src)).

(** [f.seek(off); f.read(n)] on the bytes of a file. *)
Definition seek_read (data : list Byte.byte) (off n : Z)
  : Py.result (list Byte.byte) :=
  if off <? 0 then Py.Raise Py.OSError
  else if n <? -1 then Py.Raise Py.ValueError
  else
    let tail := skipn (Z.to_nat off) data in
    Py.Ok (if n =? -1 then tail else firstn (Z.to_nat n) tail).

Record LoadReq := {
  req_ans_path : string;
  index_jsonl : option string;
  meta_json : option string;
  agent_status_path : option string
}.

(** [ExportReq]; the float [fps] is taken as a rational. *)
Record ExportReq := {
  start : option Z;
  end_ : option Z;
  fps : Q;
  font_size : Z;
  bg_color : string
}.

Record Session := {
  source : option FrameSource;
  metrics : option Metrics;
  agent_status : list (list string)
}.

(** [Session()]: no source, the empty dict of metrics, no annotation. *)
Definition new_session : Session :=
  {| source := None; metrics := None; agent_status := [] |}.

(** [_parse_agent_status] *)
Definition agent_status_step (st : list (list string) * list string) (line : string)
  : list (list string) * list string :=
  let (steps, acc) := st in
  let t := Str.strip line in
  if Str.startswith (Str.lower t) "step " then
    match acc with
    | [] => (steps, acc)
    | _ => ((steps ++ [acc])%list, [])
    end
  else match t with
       | "" => (steps, acc)
       | _ => (steps, (acc ++ [t])%list)
       end.

Definition _parse_agent_status (txt : string) : list (list string) :=
  let (steps, acc) := fold_left agent_status_step (splitlines txt) ([], []) in
  match acc with
  | [] => steps
  | _ => (steps ++ [acc])%list
  end.

(** A string is truthy when it is there and not empty. *)
Definition truthy_path (p : option string) : option string :=
  match p with
  | Some "" => None
  | _ => p
  end.

(** [x or d] for an optional int *)
Definition int_or (x : option Z) (d : Z) : Z :=
  match x with
  | Some v => if v =? 0 then d else v
  | None => d
  end.

(** The clamped range of both exports. *)
Definition export_range (cfg : ExportReq) (n : Z) : Z * Z :=
  let s := Z.max 1 (Z.min (int_or (start cfg) 1) n) in
  let e := Z.max s (Z.min (int_or (end_ cfg) n) n) in
  (s, e).





(** The replies of the three request handlers. *)
Record LoadResponse := {
  resp_ok : bool;
  num_frames : Z;
  resp_metrics : Metrics;
  has_agent_status : bool
}.

Record FramePayload := {
  p_index : Z;
  p_html : string;
  p_agent_status : list string;
  p_burning : option Z;
  p_natural : option Z;
  p_ext : option Z
}.

Section Server.

(** What the program takes from its libraries and from the machine. *)

(** [json.loads] *)
Variable json_loads : string -> Py.result json.

(** The regular files of the machine, by path, with their bytes. *)
Variable fs : string -> option (list Byte.byte).

(** Reading in text mode with [encoding="utf-8"]: [None] for bytes that are
    not valid; and [bytes.decode("utf-8", errors="replace")]. *)
Variable decode_utf8 : list Byte.byte -> option string.
Variable decode_utf8_replace : list Byte.byte -> string.

(** [os.path.splitext] *)
Variable splitext : string -> string * string.

(** Pillow images, the rasterizer [ansi_to_image], which rests on Pillow's
    fonts and drawing, and [img.convert("P", palette=ADAPTIVE, colors=256)]. *)
Variable Image : Type.
Variable ansi_to_image : string -> Z -> string -> Image.
Variable quantize : Image -> Image.

Definition isfile (path : string) : bool := is_some (fs path).

(** [open(path, "r", encoding="utf-8").read()] *)
Definition open_read_text (path : string) : Py.result string :=
  match fs path with
  | None => Py.Raise (Py.FileNotFoundError path)
  | Some data =>
      match decode_utf8 data with
      | Some txt => Py.Ok txt
      | None => Py.Raise Py.UnicodeDecodeError
      end
  end.

(** The loop of [load_index_jsonl] over the lines that are left, with the
    entries gathered so far. *)
Fixpoint load_index_lines (entries : list IndexEntry) (lines : list string)
  : Py.result (list IndexEntry) :=
  match lines with
  | [] => Py.Ok entries
  | line :: rest =>
      match Str.strip line with
      | "" => load_index_lines entries rest
      | _ =>
          obj <- json_loads line ;;
          e <- entry_of obj ;;
          load_index_lines
            (match e with
             | Some ent => (entries ++ [ent])%list
             | None => entries
             end) rest
      end
  end.

Definition load_index_jsonl (path : string) : Py.result (list IndexEntry) :=
  txt <- open_read_text path ;;
  load_index_lines [] (iter_lines txt).

(** [FrameSource.__init__] *)
Definition FrameSource_init (path : string) (index : option string)
  : Py.result FrameSource :=
  entries <- (match truthy_path index with
              | Some p => if isfile p then load_index_jsonl p else Py.Ok []
              | None => Py.Ok []
              end) ;;
  if (0 <? List.length entries)%nat then
    Py.Ok {| ans_path := path; _indexed := true; _frames := [];
             _entries := entries |}
  else
    raw <- open_read_text path ;;
    Py.Ok {| ans_path := path; _indexed := false;
             _frames := split_frames_by_headers raw; _entries := entries |}.

(** [FrameSource.get] *)
Definition get (src : FrameSource) (k : Z) : Py.result string :=
  if _indexed src then
    ent <- Py.index (_entries src) (k - 1) ;;
    data <- (match fs (ans_path src) with
             | None => Py.Raise (Py.FileNotFoundError (ans_path src))
             | Some bytes => seek_read bytes (offset ent) (length ent)
             end) ;;
    Py.Ok (decode_utf8_replace data)
  else Py.index (_frames src) (k - 1).

(** [_read_text] of the server *)
Definition _read_text (path : string) : Py.result string :=
  if isfile path then open_read_text path
  else Py.Raise (Py.FileNotFoundError path).

(** The first lines of [api_load]: the index of the request, or the
    sibling [<base>.index.jsonl] of the log when that file is there. *)
Definition index_path_of (req : LoadReq) : option string :=
  match truthy_path (index_jsonl req) with
  | Some p => Some p
  | None =>
      let candidate := fst (splitext (req_ans_path req)) ++ ".index.jsonl" in
      if isfile candidate then Some candidate else index_jsonl req
  end.

(** [api_load]: the reply or the exception, and [SESSION] afterwards. *)
Definition api_load (req : LoadReq) (SESSION : Session)
  : Py.result LoadResponse * Session :=
  match FrameSource_init (req_ans_path req) (index_path_of req) with
  | Py.Raise (Py.FileNotFoundError _) =>
      (Py.Raise (Py.HTTPException 404 ("File not found: " ++ req_ans_path req)),
       SESSION)
  | Py.Raise e => (Py.Raise e, SESSION)
  | Py.Ok src =>
      if source_len src =? 0 then
        (Py.Raise (Py.HTTPException 400 "No frames detected in file"), SESSION)
      else
        match Py.mapM (get src) (Py.range 1 (source_len src + 1)) with
        | Py.Raise e => (Py.Raise e, SESSION)
        | Py.Ok frames =>
            let m := parse_metrics frames in
            let reply status :=
              {| resp_ok := true; num_frames := source_len src;
                 resp_metrics := m;
                 has_agent_status := match status with [] => false | _ => true end |} in
            let SESSION :=
              {| source := Some src; metrics := Some m; agent_status := [] |} in
            match truthy_path (agent_status_path req) with
            | None => (Py.Ok (reply []), SESSION)
            | Some p =>
                match _read_text p with
                | Py.Ok txt =>
                    let status := _parse_agent_status txt in
                    (Py.Ok (reply status),
                     {| source := source SESSION; metrics := metrics SESSION;
                        agent_status := status |})
                | Py.Raise (Py.FileNotFoundError _) => (Py.Ok (reply []), SESSION)
                | Py.Raise e => (Py.Raise e, SESSION)
                end
            end
        end
  end.

(** [SESSION.metrics.get(key, [None] * n)[k - 1]] *)
Definition metric_at (sel : Metrics -> list (option Z)) (SESSION : Session)
  (n k : Z) : Py.result (option Z) :=
  Py.index (match metrics SESSION with
            | Some m => sel m
            | None => repeat None (Z.to_nat n)
            end) (k - 1).

(** [api_frame]; it leaves [SESSION] as it is. *)
Definition api_frame (k : Z) (SESSION : Session) : Py.result FramePayload :=
  match source SESSION with
  | None => Py.Raise (Py.HTTPException 400 "No file loaded")
  | Some src =>
      let n := source_len src in
      if (k <? 1) || (n <? k) then
        Py.Raise (Py.HTTPException 400
                    ("Frame index out of range 1.." ++ Py.str_int n))
      else
        raw <- get src k ;;
        let html := ansi_to_html raw in
        let status :=
          if (0 <=? k - 1) && (k - 1 <? Z.of_nat (List.length (agent_status SESSION)))
          then nth (Z.to_nat (k - 1)) (agent_status SESSION) []
          else [] in
        b <- metric_at burning_cells SESSION n k ;;
        nat_ <- metric_at natural_burnouts SESSION n k ;;
        ext <- metric_at extinguished_cum SESSION n k ;;
        Py.Ok {| p_index := k; p_html := html; p_agent_status := status;
                 p_burning := b; p_natural := nat_; p_ext := ext |}
  end.




End Server.

(** ** Image rendering *)

(** [visual_len] of [ansi_to_image] *)
Definition visual_len (s : string) : nat := String.length (sgr_strip s).

Section Font.

(** Pillow's fonts, [ImageFont.truetype] and [ImageFont.load_default]. *)
Variable Font : Type.
Variable truetype : string -> Z -> Py.result Font.
Variable load_default : Font.

(** [_load_font], with the global [DEFAULT_FONT] before and after. *)
Definition _load_font (point_size : Z) (DEFAULT_FONT : option Font)
  : Font * option Font :=
  match DEFAULT_FONT with
  | Some f => (f, DEFAULT_FONT)
  | None =>
      let f := match truetype "DejaVuSansMono.ttf" point_size with
               | Py.Ok f => f
               | Py.Raise _ => load_default
               end in
      (f, Some f)
  end.

End Font.

(** ** Archive of still images *)

Fixpoint zeros (n : nat) : string :=
  match n with
  | O => ""
  | S n' => String "0" (zeros n')
  end.

(** The format specification [:05d]: decimal, padded with zeros to five
    characters, the sign counted in the width. *)
Definition format_05d (k : Z) : string :=
  let d := Py.str_int (Z.abs k) in
  if k <? 0 then String "-" (zeros (4 - String.length d) ++ d)
  else zeros (5 - String.length d) ++ d.

(** [f"frame_{k:05d}.png"] *)
Definition frame_name (k : Z) : string := "frame_" ++ format_05d k ++ ".png".

Section Archive.

Variable fs : string -> option (list Byte.byte).
Variable decode_utf8_replace : list Byte.byte -> string.

(** Pillow's images, the rasterizer and [img.save(_, format="PNG")]. *)
Variable Image : Type.
Variable ansi_to_image : string -> Z -> string -> Image.
Variable png_bytes : Image -> list Byte.byte.


End Archive.

(** * Properties *)

(** ** Colour model *)

(** A colour string as the program writes them: a hash sign and six
    lower-case hexadecimal digits. *)
Definition is_lower_hex (c : ascii) : bool :=
  Str.is_digit c || ((97 <=? Str.code c) && (Str.code c <=? 102)).

Fixpoint all_lower_hex (s : string) : bool :=
  match s with
  | "" => true
  | String c s' => is_lower_hex c && all_lower_hex s'
  end.

Definition is_hex_color (s : string) : bool :=
  match s with
  | String c r =>
      Ascii.eqb c "#" && (String.length r =? 6)%nat && all_lower_hex r
  | "" => false
  end.

(** The number that a string of hexadecimal digits writes. *)
Definition hex_digit_value (c : ascii) : option Z :=
  let n := Str.code c in
  if Str.is_digit c then Some (n - 48)
  else if (97 <=? n) && (n <=? 102) then Some (n - 87)
  else None.

Fixpoint hex_value_acc (acc : Z) (s : string) : option Z :=
  match s with
  | "" => Some acc
  | String c s' =>
      match hex_digit_value c with
      | Some d => hex_value_acc (16 * acc + d) s'
      | None => None
      end
  end.

(** The 24-bit value [0xRRGGBB] of a colour string. *)
Definition rgb_value (s : string) : option Z :=
  if is_hex_color s then
    match s with
    | String _ r => hex_value_acc 0 r
    | "" => None
    end
  else None.

Definition opt_Z_eqb (a b : option Z) : bool :=
  match a, b with
  | Some x, Some y => x =? y
  | None, None => true
  | _, _ => false
  end.

Lemma opt_Z_eqb_eq a b : opt_Z_eqb a b = true -> a = b.
Proof.
  destruct a, b; simpl; intros H; try discriminate; try reflexivity.
  apply Z.eqb_eq in H. now subst.
Qed.

(** A check that holds on every element of [range(lo, hi)] holds on every
    integer of the interval. *)
Lemma range_forallb (P : Z -> bool) (lo hi : Z) :
  forallb P (Py.range lo hi) = true ->
  forall n, lo <= n < hi -> P n = true.
Proof.
  intros H n Hn. rewrite forallb_forall in H. apply H.
  unfold Py.range. apply in_map_iff. exists (Z.to_nat (n - lo)). split.
  - lia.
  - apply in_seq. lia.
Qed.

Lemma LUT_miss (n : Z) (d : string) :
  n < 0 -> Py.dict_get LUT n d = d.
Proof.
  intros Hn. unfold LUT. simpl.
  repeat match goal with
         | |- context [n =? ?k] => destruct (Z.eqb_spec n k); [lia|]
         end.
  reflexivity.
Qed.

Lemma xterm_below (n : Z) : n < 0 -> xterm_256_to_hex n = "#cccccc".
Proof.
  intros Hn. unfold xterm_256_to_hex.
  destruct (Z.ltb_spec n 16); [|lia]. now apply LUT_miss.
Qed.

Lemma xterm_above (n : Z) : 255 < n -> xterm_256_to_hex n = "#cccccc".
Proof.
  intros Hn. unfold xterm_256_to_hex.
  destruct (Z.ltb_spec n 16); [lia|].
  destruct (Z.leb_spec n 231); [lia|]. rewrite andb_false_r.
  destruct (Z.leb_spec n 255); [lia|]. rewrite andb_false_r.
  reflexivity.
Qed.

(** The check of the cube formula at one index. *)
Definition cube_check (n : Z) : bool :=
  let m := n - 16 in
  let r := m / 36 in
  let g := (m / 6) mod 6 in
  let b := m mod 6 in
  let ch v := if v =? 0 then 0 else 55 + 40 * v in
  (0 <=? r) && (r <=? 5) && (0 <=? g) && (g <=? 5) && (0 <=? b) && (b <=? 5)
  && (m =? 36 * r + 6 * g + b)
  && opt_Z_eqb (rgb_value (xterm_256_to_hex n))
               (Some (65536 * ch r + 256 * ch g + ch b)).

Definition gray_check (n : Z) : bool :=
  let v := 8 + 10 * (n - 232) in
  opt_Z_eqb (rgb_value (xterm_256_to_hex n)) (Some (65536 * v + 256 * v + v)).

(** C4. For an index [n] in 16..231 the colour is the cube entry: [n - 16]
    is [36 r + 6 g + b] with digits in 0..5, each digit 0 gives the channel
    0 and each digit [v > 0] the channel [55 + 40 v], and the three channels
    make the 24-bit value.  For [n] in 232..255 the three channels are the
    grey level [8 + 10 (n - 232)].  Outside 0..255 the colour is the fixed
    grey [#cccccc]. *)
Theorem xterm_256_to_hex_ranges (n : Z) :
  (16 <= n <= 231 ->
   exists r g b : Z,
     0 <= r <= 5 /\ 0 <= g <= 5 /\ 0 <= b <= 5 /\
     n - 16 = 36 * r + 6 * g + b /\
     let ch v := if v =? 0 then 0 else 55 + 40 * v in
     rgb_value (xterm_256_to_hex n) = Some (65536 * ch r + 256 * ch g + ch b))
  /\ (232 <= n <= 255 ->
      let v := 8 + 10 * (n - 232) in
      rgb_value (xterm_256_to_hex n) = Some (65536 * v + 256 * v + v))
  /\ (n < 0 \/ 255 < n -> xterm_256_to_hex n = "#cccccc").
Proof.
  split; [|split].
  - intros Hn.
    assert (H : cube_check n = true).
    { apply (range_forallb cube_check 16 232); [vm_compute; reflexivity | lia]. }
    unfold cube_check in H. cbv zeta in H.
    repeat (apply andb_prop in H; destruct H as [H ?]).
    exists ((n - 16) / 36), (((n - 16) / 6) mod 6), ((n - 16) mod 6).
    repeat split; try (apply Z.leb_le; assumption).
    + apply Z.eqb_eq. assumption.
    + cbv zeta. apply opt_Z_eqb_eq. assumption.
  - intros Hn. cbv zeta. apply opt_Z_eqb_eq.
    apply (range_forallb gray_check 232 256); [vm_compute; reflexivity | lia].
  - intros [Hn | Hn]; [now apply xterm_below | now apply xterm_above].
Qed.

Lemma xterm_256_to_hex_ranges_witness :
  (exists r g b : Z,
     0 <= r <= 5 /\ 0 <= g <= 5 /\ 0 <= b <= 5 /\
     100 - 16 = 36 * r + 6 * g + b /\
     let ch v := if v =? 0 then 0 else 55 + 40 * v in
     rgb_value (xterm_256_to_hex 100) = Some (65536 * ch r + 256 * ch g + ch b))
  /\ rgb_value (xterm_256_to_hex 240) = Some (65536 * 88 + 256 * 88 + 88)
  /\ xterm_256_to_hex 300 = "#cccccc".
Proof.
  split; [|split].
  - apply (proj1 (xterm_256_to_hex_ranges 100)). lia.
  - apply (proj1 (proj2 (xterm_256_to_hex_ranges 240))). lia.
  - apply (proj2 (proj2 (xterm_256_to_hex_ranges 300))). right. lia.
Defined.

(** C10. For every integer the result is a hash sign followed by exactly
    six lower-case hexadecimal digits; the function has no error path. *)
Theorem xterm_256_to_hex_well_formed (n : Z) :
  is_hex_color (xterm_256_to_hex n) = true.
Proof.
  destruct (Z.ltb_spec n 0) as [Hlt | Hge].
  - rewrite xterm_below by assumption. reflexivity.
  - destruct (Z.ltb_spec 255 n) as [Hgt | Hle].
    + rewrite xterm_above by assumption. reflexivity.
    + apply (range_forallb (fun k => is_hex_color (xterm_256_to_hex k)) 0 256);
        [vm_compute; reflexivity | lia].
Qed.

(** ** Escape-code interpreter *)

Lemma finditer_from_clause pos c s' o (e : match_sgr (String c s') = o) :
  finditer_from_unfold_clause_2 pos c s' (exist _ o e) =
  match o with
  | Some (codes, rest) =>
      let e := (pos + 3 + String.length codes)%nat in
      {| m_start := pos; m_end := e; group1 := codes |} :: finditer_from e rest
  | None => finditer_from (S pos) s'
  end.
Proof. destruct o as [[codes rest]|]; simp finditer_from; reflexivity. Qed.

Lemma sgr_strip_clause c s' o (e : match_sgr (String c s') = o) :
  sgr_strip_unfold_clause_2 c s' (exist _ o e) =
  match o with
  | Some (_, rest) => sgr_strip rest
  | None => String c (sgr_strip s')
  end.
Proof. destruct o as [[codes rest]|]; simp sgr_strip; reflexivity. Qed.

Lemma finditer_from_cons pos c s' :
  finditer_from pos (String c s') =
  match match_sgr (String c s') with
  | Some (codes, rest) =>
      let e := (pos + 3 + String.length codes)%nat in
      {| m_start := pos; m_end := e; group1 := codes |} :: finditer_from e rest
  | None => finditer_from (S pos) s'
  end.
Proof.
  rewrite finditer_from_equation_2. unfold inspect. apply finditer_from_clause.
Qed.

Lemma sgr_strip_cons c s' :
  sgr_strip (String c s') =
  match match_sgr (String c s') with
  | Some (_, rest) => sgr_strip rest
  | None => String c (sgr_strip s')
  end.
Proof.
  rewrite sgr_strip_equation_2. unfold inspect. apply sgr_strip_clause.
Qed.

Lemma str_app_nil_r (s : string) : s ++ "" = s.
Proof. induction s as [|c s IH]; simpl; [reflexivity | now rewrite IH]. Qed.

Lemma str_app_assoc (a b c : string) : (a ++ b) ++ c = a ++ (b ++ c).
Proof. induction a as [|x a IH]; simpl; [reflexivity | now rewrite IH]. Qed.

Lemma join_empty_cons (x : string) (l : list string) :
  Str.join "" (x :: l) = x ++ Str.join "" l.
Proof.
  destruct l as [|y l]; simpl; [now rewrite str_app_nil_r | reflexivity].
Qed.

Lemma join_empty_app (a b : list string) :
  Str.join "" (a ++ b) = Str.join "" a ++ Str.join "" b.
Proof.
  induction a as [|x a IH].
  - reflexivity.
  - rewrite <- app_comm_cons, !join_empty_cons, IH, str_app_assoc. reflexivity.
Qed.

(** The text of a list of runs, in order. *)
Definition runs_text (l : list Span) : string := Str.join "" (map text l).

(** The text that the loop state holds: the runs closed so far, then the
    buffer. *)
Definition pending (st : PState) : string :=
  runs_text (spans st) ++ Str.join "" (buf st).

Lemma flush_pending st : pending (flush st) = pending st.
Proof.
  unfold flush, pending, runs_text. destruct (buf st) as [|x l] eqn:E.
  - rewrite E. reflexivity.
  - cbn [spans buf]. rewrite map_app, join_empty_app. cbn [map text].
    rewrite (join_empty_cons _ []). cbn [Str.join].
    rewrite !str_app_nil_r. reflexivity.
Qed.

Lemma set_cur_pending st c : pending (set_cur st c) = pending st.
Proof. reflexivity. Qed.

Lemma buf_append_pending st chunk :
  pending (buf_append st chunk) = pending st ++ chunk.
Proof.
  unfold pending, buf_append. cbn [spans buf].
  rewrite join_empty_app, (join_empty_cons _ []). cbn [Str.join].
  rewrite str_app_nil_r, str_app_assoc. reflexivity.
Qed.

Lemma interp_parts_pending_le (n : nat) :
  forall parts st, (List.length parts <= n)%nat ->
    pending (interp_parts parts st) = pending st.
Proof.
  induction n as [|n IH]; intros parts st Hlen.
  - destruct parts; [reflexivity | simpl in Hlen; lia].
  - destruct parts as [|c rest]; [reflexivity|].
    simpl in Hlen. cbn [interp_parts].
    repeat match goal with
           | |- context [if ?b then _ else _] => destruct b
           end;
      try (rewrite IH by lia; cbn zeta;
           rewrite ?set_cur_pending, ?flush_pending; reflexivity).
    all: destruct rest as [|p [|m rest']];
      try (rewrite IH by (simpl in *; lia); reflexivity).
    all: repeat match goal with
           | |- context [if ?b then _ else _] => destruct b
           end;
      rewrite IH by (simpl in *; lia); cbn zeta;
      rewrite ?set_cur_pending, ?flush_pending; reflexivity.
Qed.

Lemma interp_parts_pending parts st :
  pending (interp_parts parts st) = pending st.
Proof. apply (interp_parts_pending_le (List.length parts)). lia. Qed.

Lemma flush_runs st : runs_text (spans (flush st)) = pending st.
Proof.
  rewrite <- flush_pending. unfold pending.
  assert (E : buf (flush st) = []).
  { unfold flush. destruct (buf st) eqn:B; [exact B | reflexivity]. }
  rewrite E. cbn [Str.join]. now rewrite str_app_nil_r.
Qed.

(** *** Slices of a line *)

Lemma drop_nil n : Str.drop n "" = "".
Proof. destruct n; reflexivity. Qed.

Lemma drop_drop a b s : Str.drop a (Str.drop b s) = Str.drop (b + a) s.
Proof.
  revert s; induction b as [|b IH]; intros s; [reflexivity|].
  destruct s as [|c s]; simpl; [apply drop_nil | apply IH].
Qed.

Lemma substring_drop i m s : substring i m s = substring 0 m (Str.drop i s).
Proof.
  revert s; induction i as [|i IH]; intros s; [reflexivity|].
  destruct s as [|c s]; simpl; [destruct m; reflexivity | apply IH].
Qed.

Lemma substring_zero_len s : substring 0 0 s = "".
Proof. destruct s; reflexivity. Qed.

Lemma substring_snoc k u c t :
  Str.drop k u = String c t ->
  substring 0 (S k) u = substring 0 k u ++ String c "".
Proof.
  revert u; induction k as [|k IH]; intros u H.
  - simpl in H. subst u. simpl. now rewrite substring_zero_len.
  - destruct u as [|x u]; [discriminate|]. simpl in H.
    change (substring 0 (S (S k)) (String x u))
      with (String x (substring 0 (S k) u)).
    rewrite (IH u H). reflexivity.
Qed.

Lemma substring_all u : substring 0 (String.length u) u = u.
Proof. induction u as [|c u IH]; simpl; [reflexivity | now rewrite IH]. Qed.

Lemma drop_length n s : String.length (Str.drop n s) = (String.length s - n)%nat.
Proof.
  revert s; induction n as [|n IH]; intros s; simpl; [lia|].
  destruct s as [|c s]; simpl; [reflexivity | apply IH].
Qed.

Lemma slice_empty s i : Str.slice s i i = "".
Proof.
  unfold Str.slice. rewrite Nat.sub_diag, substring_drop. apply substring_zero_len.
Qed.

Lemma slice_snoc s i pos c t :
  (i <= pos)%nat -> Str.drop pos s = String c t ->
  Str.slice s i (S pos) = Str.slice s i pos ++ String c "".
Proof.
  intros Hi H. unfold Str.slice.
  rewrite (substring_drop i (S pos - i)), (substring_drop i (pos - i)).
  replace (S pos - i)%nat with (S (pos - i)) by lia.
  apply substring_snoc with (t := t).
  rewrite drop_drop. replace (i + (pos - i))%nat with pos by lia. exact H.
Qed.

Lemma slice_to_end s i :
  (i <= String.length s)%nat -> Str.slice s i (String.length s) = Str.drop i s.
Proof.
  intros Hi. unfold Str.slice. rewrite substring_drop.
  rewrite <- (drop_length i s). apply substring_all.
Qed.

(** *** What a match consumes *)

Lemma span_drop p s a b :
  Str.span p s = (a, b) -> Str.drop (String.length a) s = b.
Proof.
  revert a b; induction s as [|c s IH]; simpl; intros a b H.
  - inversion H; reflexivity.
  - destruct (p c).
    + destruct (Str.span p s) as [a' b'] eqn:E. inversion H; subst; simpl.
      apply IH. reflexivity.
    + inversion H; subst; reflexivity.
Qed.

Lemma match_sgr_drop s codes rest :
  match_sgr s = Some (codes, rest) ->
  Str.drop (3 + String.length codes) s = rest.
Proof.
  unfold match_sgr. destruct s as [|e [|b r]]; try discriminate.
  destruct (Ascii.eqb e Str.ESC && Ascii.eqb b "["); try discriminate.
  destruct (Str.span sgr_param r) as [a t] eqn:E.
  destruct t as [|c t']; try discriminate.
  destruct (Ascii.eqb c "m"); try discriminate.
  intros H; inversion H; subst. apply span_drop in E.
  change (Str.drop (3 + String.length codes) (String e (String b r)))
    with (Str.drop (S (String.length codes)) r).
  replace (S (String.length codes)) with (String.length codes + 1)%nat by lia.
  rewrite <- drop_drop, E. reflexivity.
Qed.

(** *** One round of the loop keeps the text *)

Lemma on_match_pending s st i m :
  pending (fst (on_match s (st, i) m)) = pending st ++ Str.slice s i (m_start m)
  /\ snd (on_match s (st, i) m) = m_end m.
Proof.
  unfold on_match. split; [|destruct (_ || _); reflexivity].
  set (chunk := Str.slice s i (m_start m)).
  assert (H : pending (match chunk with "" => st | _ => buf_append st chunk end)
              = pending st ++ chunk).
  { destruct chunk; [now rewrite str_app_nil_r | apply buf_append_pending]. }
  destruct (_ || _); cbn [fst].
  - rewrite set_cur_pending, flush_pending. exact H.
  - rewrite interp_parts_pending. exact H.
Qed.

(** The loop from position [pos] on, with [i] the end of the last match:
    the runs carry the text held so far, the plain text between [i] and
    [pos], and what is left of the line without its control sequences. *)
Lemma scan_text (s : string) (n : nat) :
  forall t pos i st,
    (String.length t <= n)%nat ->
    Str.drop pos s = t -> (i <= pos)%nat ->
    (pos + String.length t = String.length s)%nat ->
    runs_text (finish s (fold_left (on_match s) (finditer_from pos t) (st, i)))
    = pending st ++ Str.slice s i pos ++ sgr_strip t.
Proof.
  induction n as [|n IH]; intros t pos i st Hn Hd Hi Hl.
  - destruct t; [|simpl in Hn; lia].
    simp finditer_from sgr_strip. cbn [fold_left finish]. simpl in Hl.
    assert (pos = String.length s) by lia. subst pos.
    rewrite str_app_nil_r. destruct (Nat.ltb_spec i (String.length s)).
    + rewrite flush_runs, buf_append_pending, slice_to_end by lia. reflexivity.
    + assert (i = String.length s) by lia. subst i.
      rewrite flush_runs, slice_empty, str_app_nil_r. reflexivity.
  - destruct t as [|c t'].
    { apply IH; auto. simpl; lia. }
    rewrite finditer_from_cons, sgr_strip_cons.
    destruct (match_sgr (String c t')) as [[codes rest]|] eqn:M.
    + cbn zeta. cbn [fold_left].
      destruct (on_match_pending s st i
                  {| m_start := pos; m_end := pos + 3 + String.length codes;
                     group1 := codes |}) as [Hp He].
      destruct (on_match s (st, i) _) as [st' i'] eqn:O.
      cbn [fst snd m_start m_end] in Hp, He. subst i'.
      pose proof (match_sgr_length _ _ _ M) as Hlen.
      pose proof (match_sgr_drop _ _ _ M) as Hdrop.
      rewrite IH.
      * rewrite Hp, slice_empty, str_app_assoc. reflexivity.
      * simpl in Hn, Hlen. lia.
      * rewrite <- Hdrop, <- Hd, drop_drop. f_equal. lia.
      * lia.
      * simpl in Hl, Hlen. lia.
    + rewrite IH with (pos := S pos).
      * rewrite (slice_snoc s i pos c t') by assumption.
        rewrite !str_app_assoc. reflexivity.
      * simpl in Hn. lia.
      * replace (S pos) with (pos + 1)%nat by lia.
        rewrite <- drop_drop, Hd. reflexivity.
      * lia.
      * simpl in Hl. lia.
Qed.

(** C1. For every line, the texts of the runs that [parse_ansi_to_spans]
    returns, put together in order, are the line with every control
    sequence (ESC, bracket, parameters, m) removed. *)
Theorem parse_ansi_to_spans_text (s : string) :
  runs_text (parse_ansi_to_spans s) = sgr_strip s.
Proof.
  unfold parse_ansi_to_spans, finditer.
  rewrite (scan_text s (String.length s) s 0 0 init_state); try reflexivity; try lia.
  rewrite slice_empty. reflexivity.
Qed.

(** A line has a control sequence when [SGR_RE] matches at some position. *)
Fixpoint has_sgr (s : string) : bool :=
  is_some (match_sgr s) ||
  match s with
  | "" => false
  | String _ s' => has_sgr s'
  end.

Lemma finditer_from_plain t : forall pos,
  has_sgr t = false -> finditer_from pos t = [].
Proof.
  induction t as [|c t IH]; intros pos H.
  - now simp finditer_from.
  - rewrite finditer_from_cons. cbn [has_sgr] in H.
    apply orb_false_elim in H. destruct H as [H1 H2].
    destruct (match_sgr (String c t)); [discriminate|]. now apply IH.
Qed.

(** C9, as the program has it. A line without control sequences gives one
    run, the whole line in the default style, when it is not empty; the
    empty line gives no run at all. *)
Theorem parse_ansi_to_spans_plain (s : string) :
  has_sgr s = false ->
  parse_ansi_to_spans s =
  match s with
  | "" => []
  | _ => [ {| text := s; style := default_style |} ]
  end.
Proof.
  intros H. unfold parse_ansi_to_spans, finditer.
  rewrite finditer_from_plain by assumption. cbn [fold_left finish].
  destruct s as [|c s]; reflexivity.
Qed.

Lemma parse_ansi_to_spans_plain_witness :
  has_sgr "Hot" = false /\
  parse_ansi_to_spans "Hot" = [ {| text := "Hot"; style := default_style |} ].
Proof.
  split; [reflexivity | apply (parse_ansi_to_spans_plain "Hot"); reflexivity].
Defined.

(** The empty line has no control sequence and yet gives no run, so not
    exactly one. *)
Lemma parse_ansi_to_spans_empty_line :
  has_sgr "" = false /\
  parse_ansi_to_spans "" = [] /\
  ~ (exists r, parse_ansi_to_spans "" = [r]
               /\ text r = "" /\ style r = default_style).
Proof.
  split; [reflexivity | split; [reflexivity |]].
  intros [r [H _]]. discriminate H.
Qed.

(** Without a control sequence nothing is removed. *)
Lemma sgr_strip_plain (s : string) : has_sgr s = false -> sgr_strip s = s.
Proof.
  induction s as [|c s IH]; intros H.
  - now simp sgr_strip.
  - rewrite sgr_strip_cons. cbn [has_sgr] in H.
    apply orb_false_elim in H. destruct H as [H1 H2].
    destruct (match_sgr (String c s)); [discriminate|].
    now rewrite IH.
Qed.

Fixpoint all_params (s : string) : bool :=
  match s with
  | "" => true
  | String c s' => sgr_param c && all_params s'
  end.

Lemma span_params (codes rest : string) :
  all_params codes = true ->
  Str.span sgr_param (codes ++ String "m" rest) = (codes, String "m" rest).
Proof.
  induction codes as [|c codes IH]; intros H.
  - reflexivity.
  - cbn [all_params] in H. apply andb_prop in H. destruct H as [Hc H].
    cbn [append Str.span]. rewrite Hc, (IH H). reflexivity.
Qed.

(** A control sequence at the head of a text is removed whole, whatever
    its parameters. *)
Lemma sgr_strip_sequence (codes rest : string) :
  all_params codes = true ->
  sgr_strip (ESC_str ++ "[" ++ codes ++ "m" ++ rest) = sgr_strip rest.
Proof.
  intros H. cbn [ESC_str append]. rewrite sgr_strip_cons.
  unfold match_sgr. rewrite !Ascii.eqb_refl. cbn [andb].
  rewrite (span_params codes rest H), Ascii.eqb_refl. reflexivity.
Qed.

(** A character that starts no control sequence is kept. *)
Lemma sgr_strip_char (c : ascii) (s : string) :
  match_sgr (String c s) = None -> sgr_strip (String c s) = String c (sgr_strip s).
Proof. intros H. rewrite sgr_strip_cons, H. reflexivity. Qed.

(** The scenario of the specification: bold, blue, the text, reset. *)
Example parse_ansi_to_spans_hot :
  parse_ansi_to_spans (ESC_str ++ "[1m" ++ ESC_str ++ "[34mHot" ++ ESC_str ++ "[0m")
  = [ {| text := "Hot";
         style := {| bold := true; fg := Some "#1e90ff"; bg := None |} |} ].
Proof. reflexivity. Qed.

(** An extended-colour marker is well formed when the palette selector 5
    and an index follow it in the same parameter list. *)
Definition ext_operands (rest : list Z) : bool :=
  match rest with
  | p :: _ :: _ => p =? 5
  | _ => false
  end.

(** C7, as the program has it. A marker 38 or 48 that is not followed by
    the selector and an index is passed over alone: it changes no style and
    closes no run, and the parameters after it are read as ordinary
    parameters of their own. *)
Theorem interp_parts_malformed_marker (c : Z) (rest : list Z) (st : PState) :
  c = 38 \/ c = 48 -> ext_operands rest = false ->
  interp_parts (c :: rest) st = interp_parts rest st.
Proof.
  intros Hc Hr. cbn [interp_parts].
  assert (E0 : (c =? 0) = false) by (apply Z.eqb_neq; lia).
  assert (E1 : (c =? 1) = false) by (apply Z.eqb_neq; lia).
  assert (E2 : in_range 30 c 37 || in_range 90 c 97 = false).
  { unfold in_range. destruct Hc; subst c; reflexivity. }
  assert (E3 : in_range 40 c 47 || in_range 100 c 107 = false).
  { unfold in_range. destruct Hc; subst c; reflexivity. }
  rewrite E0, E1, E2, E3.
  destruct rest as [|p [|n rest']]; try reflexivity.
  cbn [ext_operands] in Hr. rewrite Hr, !andb_false_r. reflexivity.
Qed.

Lemma interp_parts_malformed_marker_witness :
  ext_operands [1] = false /\
  interp_parts [38; 1] init_state = interp_parts [1] init_state.
Proof.
  split; [reflexivity |].
  apply (interp_parts_malformed_marker 38 [1] init_state); [left|]; reflexivity.
Defined.

(** The group [38;1] lacks the selector, and its second parameter still
    closes the run of [a] and turns bold on for [b]. *)
Lemma malformed_group_changes_style :
  ext_operands [1] = false /\
  parse_parts "38;1" = [38; 1] /\
  cur (interp_parts [38; 1] init_state) <> cur init_state /\
  parse_ansi_to_spans ("a" ++ ESC_str ++ "[38;1mb") =
  [ {| text := "a"; style := default_style |};
    {| text := "b"; style := {| bold := true; fg := None; bg := None |} |} ].
Proof.
  split; [reflexivity | split; [reflexivity | split; [discriminate | reflexivity]]].
Qed.

(** ** Frame headers *)

(** C2, as the program has it. Both header patterns demand the reset code
    ESC, bracket, 0 right after the step number, and only its final m is
    optional: the bare line is no header and its frame has no burning-cells
    value, while the same line with the reset code is the header of step 3
    with the value 12. *)
Theorem is_step_header_bare_line :
  is_step_header "Step 3: Burning cells = 12" = None
  /\ burning_cells (parse_metrics ["Step 3: Burning cells = 12"]) = [None]
  /\ split_frames_by_headers "Step 3: Burning cells = 12" = []
  /\ is_step_header ("Step 3" ++ ESC_str ++ "[0m: Burning cells = 12")
     = Some (3, 12)
  /\ burning_cells
       (parse_metrics ["Step 3" ++ ESC_str ++ "[0m: Burning cells = 12"])
     = [Some 12].
Proof. repeat split. Qed.

(** *** Every header carries the reset code *)

(** [t] is what is left of [s] after some prefix. *)
Definition suffix (t s : string) : Prop := exists pre, s = pre ++ t.

Lemma suffix_refl s : suffix s s.
Proof. now exists "". Qed.

Lemma suffix_trans a b c : suffix a b -> suffix b c -> suffix a c.
Proof.
  intros [p Hp] [q Hq]. exists (q ++ p). subst. now rewrite str_app_assoc.
Qed.

Lemma suffix_cons c t s : suffix t s -> suffix t (String c s).
Proof. intros [p Hp]. exists (String c p). now subst. Qed.

Lemma span_app p s a b : Str.span p s = (a, b) -> s = a ++ b.
Proof.
  revert a b; induction s as [|c s IH]; simpl; intros a b H.
  - inversion H; reflexivity.
  - destruct (p c).
    + destruct (Str.span p s) as [a' b'] eqn:E. inversion H; subst; simpl.
      now rewrite (IH a' b eq_refl).
    + inversion H; subst; reflexivity.
Qed.

Lemma span_suffix p s : suffix (snd (Str.span p s)) s.
Proof.
  destruct (Str.span p s) as [a b] eqn:E. exists a. now apply (span_app p).
Qed.

Lemma lit_suffix p : forall s r, Re.lit p s = Some r -> suffix r s.
Proof.
  induction p as [|a p IH]; intros s r H.
  - destruct s; inversion H; apply suffix_refl.
  - destruct s as [|b s]; [discriminate|]. cbn [Re.lit] in H.
    destruct (Ascii.eqb _ _); [|discriminate].
    apply suffix_cons. now apply IH.
Qed.

Lemma opt_suffix f s :
  (forall r, f s = Some r -> suffix r s) -> suffix (Re.opt f s) s.
Proof.
  intros H. unfold Re.opt. destruct (f s) as [r|]; [now apply H | apply suffix_refl].
Qed.

Lemma ws0_suffix s : suffix (Re.ws0 s) s.
Proof. apply span_suffix. Qed.

Lemma ws1_suffix s r : Re.ws1 s = Some r -> suffix r s.
Proof.
  unfold Re.ws1. pose proof (span_suffix Str.is_space s) as H.
  destruct (Str.span Str.is_space s) as [a b]. cbn [snd] in H.
  destruct a; [discriminate|]. intros E; inversion E; now subst.
Qed.

Lemma digits1_suffix s d r : Re.digits1 s = Some (d, r) -> suffix r s.
Proof.
  unfold Re.digits1. pose proof (span_suffix Str.is_digit s) as H.
  destruct (Str.span Str.is_digit s) as [a b]. cbn [snd] in H.
  destruct a; [discriminate|]. intros E; inversion E; now subst.
Qed.

(** ESC, the bracket and the digit 0 have no other case. *)
Lemma caseless_char (a b : ascii) :
  a = Str.ESC \/ a = "["%char \/ a = "0"%char ->
  Ascii.eqb (Str.lower_char a) (Str.lower_char b) = true -> b = a.
Proof.
  intros Ha H.
  destruct Ha as [Ha | [Ha | Ha]]; subst a;
    destruct b as [[] [] [] [] [] [] [] []];
    vm_compute in H; try discriminate H; reflexivity.
Qed.

Lemma lit_reset s r :
  Re.lit (ESC_str ++ "[0") s = Some r -> s = ESC_str ++ "[0" ++ r.
Proof.
  cbn [ESC_str append]. intros H.
  destruct s as [|b1 [|b2 [|b3 s]]]; cbn [Re.lit] in H;
    try discriminate;
    repeat match type of H with
           | (if ?c then _ else _) = _ => destruct c eqn:?; [|discriminate H]
           | match ?x with _ => _ end = _ => destruct x; try discriminate H
           end.
  all: try discriminate.
  all: repeat match goal with
         | E : Ascii.eqb (Str.lower_char _) (Str.lower_char _) = true |- _ =>
             apply caseless_char in E; [subst | tauto]
         end.
  all: inversion H; reflexivity.
Qed.

Lemma hdr_prefix_reset s step r :
  hdr_prefix s = Some (step, r) -> exists t, suffix (ESC_str ++ "[0" ++ t) s.
Proof.
  unfold hdr_prefix, Re.and_then. intros H.
  pose proof (opt_suffix (Re.lit (ESC_str ++ "[1m")) s
                (fun r => lit_suffix _ s r)) as S0.
  set (s0 := Re.opt (Re.lit (ESC_str ++ "[1m")) s) in *.
  destruct (Re.lit "Step" s0) as [s1|] eqn:E1; [|discriminate].
  destruct (Re.ws1 s1) as [s2|] eqn:E2; [|discriminate].
  destruct (Re.digits1 s2) as [[d s3]|] eqn:E3; [|discriminate].
  destruct (Re.lit (ESC_str ++ "[0") s3) as [s4|] eqn:E4; [|discriminate].
  exists s4. apply lit_reset in E4. rewrite <- E4.
  apply lit_suffix in E1. apply ws1_suffix in E2. apply digits1_suffix in E3.
  eauto using suffix_trans.
Qed.

Lemma startswith_app p t : Str.startswith (p ++ t) p = true.
Proof.
  induction p as [|a p IH]; [now destruct t|].
  cbn. now rewrite Ascii.eqb_refl.
Qed.

Lemma startswith_prefix a w p :
  Str.startswith a p = true -> Str.startswith (a ++ w) p = true.
Proof.
  revert a; induction p as [|x p IH]; intros a H; [now destruct (a ++ w)|].
  destruct a as [|y a]; [discriminate|]. cbn in *.
  apply andb_prop in H. destruct H as [H1 H2]. rewrite H1. now apply IH.
Qed.

Lemma contains_head s p : Str.startswith s p = true -> Str.contains s p = true.
Proof. intros H. destruct s; cbn [Str.contains]; now rewrite H. Qed.

Lemma contains_suffix t s p :
  suffix t s -> Str.contains t p = true -> Str.contains s p = true.
Proof.
  intros [pre Hp] H. subst s. induction pre as [|c pre IH]; [exact H|].
  cbn. rewrite IH. apply orb_true_r.
Qed.

Lemma contains_prefix a w p :
  Str.contains a p = true -> Str.contains (a ++ w) p = true.
Proof.
  induction a as [|c a IH]; intros H.
  - cbn in H. rewrite orb_false_r in H.
    apply contains_head. now apply (startswith_prefix "" w p).
  - cbn in H. apply orb_prop in H. destruct H as [H|H].
    + apply contains_head. now apply (startswith_prefix (String c a) w p).
    + cbn. rewrite (IH H). apply orb_true_r.
Qed.

Lemma lstrip_suffix s : suffix (Str.lstrip s) s.
Proof.
  induction s as [|c s IH]; [apply suffix_refl|]. cbn.
  destruct (Str.is_space c); [now apply suffix_cons | apply suffix_refl].
Qed.

Lemma rstrip_prefix s : exists w, s = Str.rstrip s ++ w.
Proof.
  induction s as [|c s [w IH]]; [now exists ""|]. cbn.
  destruct (Str.rstrip s) as [|x r] eqn:E.
  - destruct (Str.is_space c).
    + now exists (String c s).
    + exists s. reflexivity.
  - exists w. cbn. f_equal. exact IH.
Qed.

Lemma contains_strip line p :
  Str.contains (Str.strip line) p = true -> Str.contains line p = true.
Proof.
  unfold Str.strip. intros H.
  apply (contains_suffix (Str.lstrip line)); [apply lstrip_suffix|].
  destruct (rstrip_prefix (Str.lstrip line)) as [w Hw]. rewrite Hw.
  now apply contains_prefix.
Qed.

(** A line is a header only if it holds the reset code ESC, bracket, 0:
    no line of plain text is one. *)
Lemma is_step_header_needs_reset (line : string) :
  is_step_header line <> None ->
  Str.contains line (ESC_str ++ "[0") = true.
Proof.
  intros H. apply contains_strip.
  assert (P : exists step r, hdr_prefix (Str.strip line) = Some (step, r)).
  { unfold is_step_header, STEP_HDR_VARIANTS in H. cbn [first_match] in H.
    unfold hdr_variant_A, hdr_variant_B, Re.and_then in H.
    destruct (hdr_prefix (Str.strip line)) as [[step r]|]; [now eauto|].
    now contradiction H. }
  destruct P as [step [r P]]. apply hdr_prefix_reset in P.
  destruct P as [t St].
  apply (contains_suffix _ _ _ St). apply contains_head.
  rewrite <- str_app_assoc. apply startswith_app.
Qed.

(** ** Frame store and request layer *)

Lemma index_above {A} (l : list A) (i : Z) :
  Z.of_nat (List.length l) <= i -> Py.index l i = Py.Raise Py.IndexError.
Proof.
  intros H. unfold Py.index.
  destruct (Z.ltb_spec i 0); [lia|].
  destruct (Z.ltb_spec i 0); [lia|].
  destruct (Z.leb_spec (Z.of_nat (List.length l)) i); [|lia].
  reflexivity.
Qed.

Lemma index_below {A} (l : list A) (i : Z) :
  i < - Z.of_nat (List.length l) -> Py.index l i = Py.Raise Py.IndexError.
Proof.
  intros H. unfold Py.index.
  destruct (Z.ltb_spec i 0); [|lia].
  destruct (Z.ltb_spec (i + Z.of_nat (List.length l)) 0); [|lia].
  reflexivity.
Qed.

Lemma index_inside {A} (l : list A) (i : Z) :
  0 <= i < Z.of_nat (List.length l) ->
  exists v, Py.index l i = Py.Ok v /\ nth_error l (Z.to_nat i) = Some v.
Proof.
  intros H. unfold Py.index.
  destruct (Z.ltb_spec i 0); [lia|].
  destruct (Z.ltb_spec i 0); [lia|].
  destruct (Z.leb_spec (Z.of_nat (List.length l)) i); [lia|].
  cbn [orb]. destruct (nth_error l (Z.to_nat i)) as [v|] eqn:E.
  - exists v. split; reflexivity.
  - apply nth_error_None in E. lia.
Qed.



Lemma range_cons (a b : Z) :
  a < b -> Py.range a b = a :: Py.range (a + 1) b.
Proof.
  intros H. unfold Py.range.
  replace (Z.to_nat (b - a)) with (S (Z.to_nat (b - (a + 1)))) by lia.
  cbn [seq map]. f_equal; [lia|].
  rewrite <- seq_shift, map_map. apply map_ext. intros k. lia.
Qed.









(** *** Records of an index file *)

Lemma entry_of_not_object (v : json) :
  (forall d, v <> JDict d) -> entry_of v = Py.Raise Py.AttributeError.
Proof.
  intros H. destruct v; try reflexivity. now destruct (H items).
Qed.

(** A record with an integer offset and a non-zero integer length gives
    that entry; an offset 0 stands when the record has no start. *)
Lemma entry_of_integers (d : list (string * json)) (o l : Z) :
  Json.lookup d "offset" = Some (JInt o) ->
  (o = 0 -> Json.lookup d "start" = None) ->
  Json.lookup d "length" = Some (JInt l) -> l <> 0 ->
  entry_of (JDict d) = Py.Ok (Some {| offset := o; length := l |}).
Proof.
  intros Ho Hs Hl Hln.
  assert (El : (l =? 0) = false) by (now apply Z.eqb_neq).
  unfold entry_of, Json.get, Json.or. cbn [Py.bind].
  rewrite Ho, Hl. destruct (Z.eq_dec o 0) as [E|E].
  - rewrite (Hs E). subst o. cbn. rewrite ?El. cbn. rewrite ?El. reflexivity.
  - assert (Eo : (o =? 0) = false) by (now apply Z.eqb_neq).
    cbn. rewrite ?Eo, ?El. cbn. rewrite ?Eo, ?El. reflexivity.
Qed.

(** A record without offset and start is read at offset 0. *)
Lemma entry_of_no_offset (d : list (string * json)) (l : Z) :
  Json.lookup d "offset" = None -> Json.lookup d "start" = None ->
  Json.lookup d "length" = Some (JInt l) -> l <> 0 ->
  entry_of (JDict d) = Py.Ok (Some {| offset := 0; length := l |}).
Proof.
  intros Ho Hs Hl Hln.
  assert (El : (l =? 0) = false) by (now apply Z.eqb_neq).
  unfold entry_of, Json.get, Json.or. cbn [Py.bind].
  rewrite Ho, Hs, Hl. cbn. rewrite ?El. cbn. rewrite ?El. reflexivity.
Qed.

(** A record whose length is a string, a list or a non-zero float is
    dropped, and so is one with neither length, len nor end. *)
Lemma entry_of_not_integer (d : list (string * json)) (v : json) :
  Json.lookup d "length" = Some v -> Json.truthy v = true ->
  Json.as_int v = None ->
  entry_of (JDict d) = Py.Ok None.
Proof.
  intros Hl Ht Hi. unfold entry_of, Json.get. cbn [Py.bind].
  rewrite Hl. unfold Json.or. rewrite Ht.
  destruct v; try discriminate; cbn [Py.bind Json.as_int];
    match goal with
    | |- context [Json.as_int ?x] => destruct (Json.as_int x)
    end; reflexivity.
Qed.

Lemma entry_of_no_length (d : list (string * json)) :
  Json.lookup d "length" = None -> Json.lookup d "len" = None ->
  Json.lookup d "end" = None ->
  entry_of (JDict d) = Py.Ok None.
Proof.
  intros Hl Hn He. unfold entry_of, Json.get, Json.has_key. cbn [Py.bind].
  rewrite Hl, Hn, He. cbn.
  repeat match goal with
         | |- context [Json.as_int ?x] => destruct (Json.as_int x)
         end; reflexivity.
Qed.

Section ServerProperties.

Variable json_loads : string -> Py.result json.
Variable fs : string -> option (list Byte.byte).
Variable decode_utf8 : list Byte.byte -> option string.
Variable decode_utf8_replace : list Byte.byte -> string.
Variable splitext : string -> string * string.
Variable Image : Type.
Variable ansi_to_image : string -> Z -> string -> Image.
Variable quantize : Image -> Image.


Lemma get_out_of_list src k :
  k <= - source_len src \/ source_len src < k ->
  get fs decode_utf8_replace src k = Py.Raise Py.IndexError.
Proof.
  intros H. unfold get, source_len in *.
  destruct (_indexed src).
  - destruct H; [rewrite index_below by lia | rewrite index_above by lia];
      reflexivity.
  - destruct H; [apply index_below | apply index_above]; lia.
Qed.

(** C3, as the program has it. The request for frame [k] is refused with
    status 400 whenever [k] is outside [1..len], whatever the mode of the
    store; the store's own [get] raises [IndexError] for every [k] above
    [len] (and for [k <= -len]). *)
Theorem frame_out_of_range (src : FrameSource) (k : Z) :
  (k < 1 \/ source_len src < k ->
   forall SESSION, source SESSION = Some src ->
     api_frame fs decode_utf8_replace k SESSION =
     Py.Raise (Py.HTTPException 400
                 ("Frame index out of range 1.." ++ Py.str_int (source_len src))))
  /\ (k <= - source_len src \/ source_len src < k ->
      get fs decode_utf8_replace src k = Py.Raise Py.IndexError).
Proof.
  split; [|apply get_out_of_list].
  intros H SESSION Hs. unfold api_frame. rewrite Hs.
  destruct H as [H|H].
  - destruct (Z.ltb_spec k 1); [reflexivity | lia].
  - destruct (Z.ltb_spec (source_len src) k); [|lia].
    rewrite orb_true_r. reflexivity.
Qed.



Lemma read_text_exn (p : string) (e : Py.exn) :
  _read_text fs decode_utf8 p = Py.Raise e ->
  e = Py.FileNotFoundError p \/ e = Py.UnicodeDecodeError.
Proof.
  unfold _read_text, isfile, open_read_text.
  destruct (fs p) as [data|]; cbn [is_some].
  - destruct (decode_utf8 data); intros H; inversion H. now right.
  - intros H; inversion H. now left.
Qed.

Lemma FrameSource_init_ok (path : string) (idx : option string) (src : FrameSource) :
  FrameSource_init json_loads fs decode_utf8 path idx = Py.Ok src ->
  ans_path src = path /\
  ((_indexed src = true /\ _entries src <> [])
   \/ (_indexed src = false /\
       exists raw, open_read_text fs decode_utf8 path = Py.Ok raw)).
Proof.
  unfold FrameSource_init.
  match goal with |- context [Py.bind ?m _] => destruct m as [entries|e] end;
    [|discriminate].
  cbn [Py.bind]. destruct (Nat.ltb_spec 0 (List.length entries)) as [Hlt|Hge].
  - intros H; inversion H; subst; cbn. split; [reflexivity|]. left.
    split; [reflexivity|]. destruct entries; [simpl in Hlt; lia | discriminate].
  - destruct (open_read_text fs decode_utf8 path) as [raw|e] eqn:E; [|discriminate].
    cbn [Py.bind]. intros H; inversion H; subst; cbn. split; [reflexivity|].
    right. split; [reflexivity|]. now exists raw.
Qed.

(** C8. A load that fails because the log file is missing, or because no
    frame can be derived, leaves [SESSION] exactly as it was; so does every
    load that is refused with an HTTP status. *)
Theorem api_load_all_or_nothing (req : LoadReq) (SESSION : Session) :
  (fs (req_ans_path req) = None ->
   exists e,
     api_load json_loads fs decode_utf8 decode_utf8_replace splitext req SESSION
     = (Py.Raise e, SESSION))
  /\ (forall src,
        FrameSource_init json_loads fs decode_utf8 (req_ans_path req)
          (index_path_of fs splitext req) = Py.Ok src ->
        source_len src = 0 ->
        api_load json_loads fs decode_utf8 decode_utf8_replace splitext req SESSION
        = (Py.Raise (Py.HTTPException 400 "No frames detected in file"), SESSION))
  /\ (forall code detail SESSION',
        api_load json_loads fs decode_utf8 decode_utf8_replace splitext req SESSION
        = (Py.Raise (Py.HTTPException code detail), SESSION') ->
        SESSION' = SESSION).
Proof.
  split; [|split].
  - intros Hfs. unfold api_load.
    destruct (FrameSource_init _ _ _ _ _) as [src|e] eqn:Hinit.
    + destruct (FrameSource_init_ok _ _ _ Hinit) as [Hp [[Hi He] | [_ [raw Hr]]]].
      * assert (Hlen : 0 < source_len src).
        { unfold source_len. rewrite Hi. destruct (_entries src);
            [congruence | simpl; lia]. }
        destruct (Z.eqb_spec (source_len src) 0); [lia|].
        rewrite range_cons by lia. cbn [Py.mapM].
        assert (Hg : exists e, get fs decode_utf8_replace src 1 = Py.Raise e).
        { unfold get. rewrite Hi.
          destruct (index_inside (_entries src) (1 - 1)) as [ent [Hent _]].
          { unfold source_len in Hlen. rewrite Hi in Hlen. lia. }
          rewrite Hent, Hp, Hfs. cbn. eexists; reflexivity. }
        destruct Hg as [e Hg]. rewrite Hg. cbn [Py.bind].
        exists e. reflexivity.
      * unfold open_read_text in Hr. rewrite Hfs in Hr. discriminate.
    + destruct e; eexists; reflexivity.
  - intros src Hinit Hlen. unfold api_load. rewrite Hinit, Hlen. reflexivity.
  - intros code detail S' H. unfold api_load in H.
    destruct (FrameSource_init _ _ _ _ _) as [src|e].
    + destruct (source_len src =? 0); [now inversion H|].
      destruct (Py.mapM _ _) as [frames|e]; [|now inversion H].
      destruct (truthy_path (agent_status_path req)) as [p|]; [|discriminate].
      destruct (_read_text fs decode_utf8 p) as [txt|e] eqn:R; [discriminate|].
      apply read_text_exn in R. destruct R; subst e; discriminate.
    + destruct e; now inversion H.
Qed.




End ServerProperties.

(** ** Examples on a small machine *)

Module Sample.

Definition NL : string := String (ascii_of_nat 10) "".

Definition quoted (s : string) : string := dquote ++ s ++ dquote.

(** Two records of an index file, and a line that is no JSON. *)
Definition rec_full : string :=
  "{" ++ quoted "offset" ++ ": 0, " ++ quoted "length" ++ ": 4}".
Definition rec_no_offset : string := "{" ++ quoted "length" ++ ": 5}".
Definition not_json : string := "not json".

(** [json.loads] on the three texts above, white space around them
    allowed: what it gives for other texts is not used. *)
Definition json_loads (line : string) : Py.result json :=
  let t := Str.strip line in
  if String.eqb t rec_full then
    Py.Ok (JDict [("offset", JInt 0); ("length", JInt 4)])
  else if String.eqb t rec_no_offset then
    Py.Ok (JDict [("length", JInt 5)])
  else Py.Raise Py.JSONDecodeError.

(** Decoding for files of ASCII bytes without carriage returns, on which
    UTF-8 and the translation of line ends change nothing. *)
Definition is_ascii_byte (b : Byte.byte) : bool := (Byte.to_nat b <? 128)%nat.

Definition decode_utf8 (data : list Byte.byte) : option string :=
  if forallb is_ascii_byte data then Some (string_of_list_byte data) else None.

Definition decode_utf8_replace (data : list Byte.byte) : string :=
  string_of_list_byte data.

(** [os.path.splitext] on paths without a dot. *)
Definition splitext (p : string) : string * string := (p, "").

(** A header line as the simulation writes it. *)
Definition header (step burning : string) : string :=
  ESC_str ++ "[1mStep " ++ step ++ ESC_str ++ "[0m: Burning cells = " ++ burning.

Definition log_text : string :=
  header "1" "2" ++ NL ++ "Natural burnouts: 0" ++ NL ++
  header "2" "3" ++ NL ++
  header "3" "1" ++ NL.

(** The files: a log of three frames, an index with a line that is no
    JSON, an index whose record has no offset, and notes that are not
    UTF-8. *)
Definition fs (path : string) : option (list Byte.byte) :=
  if String.eqb path "runlog" then Some (list_byte_of_string log_text)
  else if String.eqb path "bad.jsonl" then
    Some (list_byte_of_string (rec_full ++ NL ++ not_json ++ NL))
  else if String.eqb path "nooffset.jsonl" then
    Some (list_byte_of_string (rec_no_offset ++ NL))
  else if String.eqb path "notes" then Some [Byte.xff]
  else None.

Definition no_files (path : string) : option (list Byte.byte) := None.


Definition load_req (log : string) (index : option string) : LoadReq :=
  {| req_ans_path := log; index_jsonl := index; meta_json := None;
     agent_status_path := None |}.

(** The session after the log of three frames was loaded. *)
Definition loaded : Session :=
  snd (api_load json_loads fs decode_utf8 decode_utf8_replace splitext
         (load_req "runlog" None) new_session).

Definition split_store : FrameSource :=
  {| ans_path := "runlog"; _indexed := false; _frames := ["a"; "b"];
     _entries := [] |}.

Definition indexed_store : FrameSource :=
  {| ans_path := "runlog"; _indexed := true; _frames := [];
     _entries := [ {| offset := 0; length := 1 |};
                   {| offset := 5; length := 4 |} ] |}.

End Sample.

(** A load that succeeds replaces the session: three frames, their
    burning-cells values, split mode. *)
Example api_load_sample :
  option_map source_len (source Sample.loaded) = Some 3
  /\ option_map burning_cells (metrics Sample.loaded)
     = Some [Some 2; Some 3; Some 1]
  /\ option_map natural_burnouts (metrics Sample.loaded)
     = Some [Some 0; None; None]
  /\ option_map _indexed (source Sample.loaded) = Some false.
Proof. vm_compute. repeat split. Qed.

(** An annotation file that cannot be decoded ends the request after the
    new source and metrics were stored. *)
Example api_load_undecodable_notes :
  let r := api_load Sample.json_loads Sample.fs Sample.decode_utf8
             Sample.decode_utf8_replace Sample.splitext
             {| req_ans_path := "runlog"; index_jsonl := None; meta_json := None;
                agent_status_path := Some "notes" |} new_session in
  fst r = Py.Raise Py.UnicodeDecodeError
  /\ option_map source_len (source (snd r)) = Some 3.
Proof. vm_compute. split; reflexivity. Qed.

(** Frame 0 is outside [1..len], and the store's [get] still answers, with
    the last frame, in split mode and in random-access mode alike. *)
Lemma get_zero_is_last_frame :
  source_len Sample.split_store = 2
  /\ get Sample.fs Sample.decode_utf8_replace Sample.split_store 0 = Py.Ok "b"
  /\ source_len Sample.indexed_store = 2
  /\ get Sample.fs Sample.decode_utf8_replace Sample.indexed_store 0
     = Py.Ok "tep "
  /\ ~ (forall (src : FrameSource) (k : Z),
          k < 1 \/ source_len src < k ->
          exists e, get Sample.fs Sample.decode_utf8_replace src k = Py.Raise e).
Proof.
  split; [reflexivity | split; [reflexivity | split; [reflexivity | split]]].
  - vm_compute. reflexivity.
  - intros H. destruct (H Sample.split_store 0) as [e He]; [left; lia|].
    discriminate He.
Qed.

Lemma frame_out_of_range_witness :
  api_frame Sample.fs Sample.decode_utf8_replace 0 Sample.loaded
  = Py.Raise (Py.HTTPException 400 "Frame index out of range 1..3")
  /\ api_frame Sample.fs Sample.decode_utf8_replace 4 Sample.loaded
     = Py.Raise (Py.HTTPException 400 "Frame index out of range 1..3")
  /\ get Sample.fs Sample.decode_utf8_replace Sample.indexed_store 3
     = Py.Raise Py.IndexError.
Proof.
  split; [|split].
  - apply (proj1 (frame_out_of_range Sample.fs Sample.decode_utf8_replace
                    {| ans_path := "runlog"; _indexed := false;
                       _frames := split_frames_by_headers Sample.log_text;
                       _entries := [] |} 0)).
    + left. lia.
    + vm_compute. reflexivity.
  - apply (proj1 (frame_out_of_range Sample.fs Sample.decode_utf8_replace
                    {| ans_path := "runlog"; _indexed := false;
                       _frames := split_frames_by_headers Sample.log_text;
                       _entries := [] |} 4)).
    + right. vm_compute. reflexivity.
    + vm_compute. reflexivity.
  - apply (proj2 (frame_out_of_range Sample.fs Sample.decode_utf8_replace
                    Sample.indexed_store 3)).
    right. vm_compute. reflexivity.
Defined.






Lemma api_load_all_or_nothing_witness :
  exists e,
    api_load Sample.json_loads Sample.no_files Sample.decode_utf8
      Sample.decode_utf8_replace Sample.splitext
      (Sample.load_req "runlog" None) Sample.loaded
    = (Py.Raise e, Sample.loaded).
Proof.
  apply (proj1 (api_load_all_or_nothing Sample.json_loads Sample.no_files
                  Sample.decode_utf8 Sample.decode_utf8_replace Sample.splitext
                  (Sample.load_req "runlog" None) Sample.loaded)).
  reflexivity.
Defined.

(** * Further properties of the code *)

(** ** The interpreter's runs *)

(** Induction along the [while] loop of the parameters. *)
Functional Scheme interp_parts_ind := Induction for interp_parts Sort Prop.

(** What [flush] and an assignment to [cur] both keep, the loop keeps. *)
Lemma interp_parts_keeps (P : PState -> Prop) :
  (forall st, P st -> P (flush st)) ->
  (forall st c, P st -> P (set_cur st c)) ->
  forall parts st, P st -> P (interp_parts parts st).
Proof.
  intros Hf Hc parts st.
  functional induction (interp_parts parts st); intros H; auto.
Qed.

(** No run and no piece of the buffer is empty. *)
Definition no_empty_text (st : PState) : Prop :=
  Forall (fun sp => text sp <> "") (spans st)
  /\ Forall (fun chunk => chunk <> "") (buf st).

Lemma no_empty_text_flush st : no_empty_text st -> no_empty_text (flush st).
Proof.
  intros [Hs Hb]. unfold flush. destruct (buf st) as [|x l] eqn:E.
  - split; [exact Hs | now rewrite E].
  - split; cbn [spans buf]; [|constructor].
    apply Forall_app. split; [exact Hs|]. constructor; [|constructor].
    cbn [text]. rewrite join_empty_cons. inversion Hb; subst.
    destruct x; [congruence | discriminate].
Qed.

Lemma no_empty_text_append st chunk :
  chunk <> "" -> no_empty_text st -> no_empty_text (buf_append st chunk).
Proof.
  intros Hc [Hs Hb]. split; cbn [buf_append spans buf]; [exact Hs|].
  apply Forall_app. split; [exact Hb | now constructor].
Qed.

Lemma no_empty_text_on_match s st i m :
  no_empty_text st -> no_empty_text (fst (on_match s (st, i) m)).
Proof.
  intros H. unfold on_match.
  assert (H1 : no_empty_text
                 (match Str.slice s i (m_start m) with
                  | "" => st
                  | _ => buf_append st (Str.slice s i (m_start m))
                  end)).
  { destruct (Str.slice s i (m_start m)) eqn:E; [exact H|].
    apply no_empty_text_append; [discriminate | exact H]. }
  destruct (_ || _); cbn [fst].
  - apply no_empty_text_flush in H1. destruct H1 as [A B]. split; assumption.
  - apply interp_parts_keeps; auto using no_empty_text_flush.
Qed.

Lemma fold_on_match_keeps (P : PState -> Prop) s :
  (forall st i m, P st -> P (fst (on_match s (st, i) m))) ->
  forall ms st i, P st -> P (fst (fold_left (on_match s) ms (st, i))).
Proof.
  intros Hstep ms. induction ms as [|m ms IH]; intros st i H; [exact H|].
  cbn [fold_left]. destruct (on_match s (st, i) m) as [st' i'] eqn:E.
  apply IH. specialize (Hstep st i m H). now rewrite E in Hstep.
Qed.

(** X1. No run that [parse_ansi_to_spans] returns has an empty text. *)
Theorem parse_ansi_to_spans_no_empty_run (s : string) (sp : Span) :
  In sp (parse_ansi_to_spans s) -> text sp <> "".
Proof.
  unfold parse_ansi_to_spans, finish.
  pose proof (fold_on_match_keeps no_empty_text s
                (no_empty_text_on_match s) (finditer s) init_state 0%nat) as H.
  destruct (fold_left (on_match s) (finditer s) (init_state, 0%nat)) as [st i].
  cbn [fst] in H. specialize (H (conj (Forall_nil _) (Forall_nil _))).
  assert (H' : no_empty_text
                 (if (i <? String.length s)%nat
                  then buf_append st (Str.drop i s) else st)).
  { destruct (Nat.ltb_spec i (String.length s)); [|exact H].
    apply no_empty_text_append; [|exact H].
    intros E. pose proof (drop_length i s) as L. rewrite E in L. simpl in L. lia. }
  apply no_empty_text_flush in H'. destruct H' as [Hs _].
  rewrite Forall_forall in Hs. intros Hin. now apply Hs.
Qed.

Definition sample_hot_run : Span :=
  {| text := "Hot";
     style := {| bold := true; fg := Some "#1e90ff"; bg := None |} |}.

Lemma parse_ansi_to_spans_no_empty_run_witness :
  In sample_hot_run
     (parse_ansi_to_spans
        (ESC_str ++ "[1m" ++ ESC_str ++ "[34mHot" ++ ESC_str ++ "[0m"))
  /\ text sample_hot_run <> "".
Proof.
  assert (H : In sample_hot_run
                 (parse_ansi_to_spans
                    (ESC_str ++ "[1m" ++ ESC_str ++ "[34mHot" ++ ESC_str ++ "[0m"))).
  { left. reflexivity. }
  split; [exact H | exact (parse_ansi_to_spans_no_empty_run _ _ H)].
Defined.

(** The runs closed so far, and one more when the buffer holds text. *)
Definition runs_due (st : PState) : nat :=
  (List.length (spans st) + match buf st with [] => 0 | _ => 1 end)%nat.

Lemma runs_due_flush st : runs_due (flush st) = runs_due st.
Proof.
  unfold runs_due, flush. destruct (buf st) eqn:E; [now rewrite E|].
  cbn [spans buf]. rewrite length_app. simpl. lia.
Qed.

Lemma runs_due_set_cur st c : runs_due (set_cur st c) = runs_due st.
Proof. reflexivity. Qed.

Lemma runs_due_append st chunk :
  (runs_due (buf_append st chunk) <= S (runs_due st))%nat.
Proof.
  unfold runs_due, buf_append. cbn [spans buf].
  destruct (buf st); simpl; lia.
Qed.

Lemma runs_due_on_match s n st i m :
  (runs_due st <= n)%nat -> (runs_due (fst (on_match s (st, i) m)) <= S n)%nat.
Proof.
  intros H. unfold on_match.
  assert (H1 : (runs_due
                  (match Str.slice s i (m_start m) with
                   | "" => st
                   | _ => buf_append st (Str.slice s i (m_start m))
                   end) <= S n)%nat).
  { destruct (Str.slice s i (m_start m)); [lia|].
    etransitivity; [apply runs_due_append | lia]. }
  destruct (_ || _); cbn [fst].
  - now rewrite runs_due_set_cur, runs_due_flush.
  - apply (interp_parts_keeps (fun x => (runs_due x <= S n)%nat)); auto.
    intros x Hx. now rewrite runs_due_flush.
Qed.

(** X2. A line gives at most one run more than it has control sequences. *)
Theorem parse_ansi_to_spans_run_count (s : string) :
  (List.length (parse_ansi_to_spans s) <= S (List.length (finditer s)))%nat.
Proof.
  unfold parse_ansi_to_spans, finish.
  assert (G : forall ms st i n, (runs_due st <= n)%nat ->
            (runs_due (fst (fold_left (on_match s) ms (st, i)))
             <= n + List.length ms)%nat).
  { induction ms as [|m ms IH]; intros st i n H; cbn [fold_left]; [simpl; lia|].
    destruct (on_match s (st, i) m) as [st' i'] eqn:E.
    pose proof (runs_due_on_match s n st i m H) as H'. rewrite E in H'.
    cbn [fst] in H'. specialize (IH st' i' (S n) H'). simpl. lia. }
  specialize (G (finditer s) init_state 0%nat 0%nat (Nat.le_refl _)).
  destruct (fold_left (on_match s) (finditer s) (init_state, 0%nat)) as [st i].
  cbn [fst] in G.
  set (st' := if (i <? String.length s)%nat
              then buf_append st (Str.drop i s) else st).
  assert (H : (runs_due st' <= S (List.length (finditer s)))%nat).
  { unfold st'. destruct (i <? String.length s)%nat;
      [etransitivity; [apply runs_due_append|] |]; simpl in G; lia. }
  rewrite <- runs_due_flush in H. unfold runs_due in H. lia.
Qed.

(** ** The colours of the runs *)

Definition color_ok (c : option string) : Prop :=
  match c with
  | Some col => is_hex_color col = true
  | None => True
  end.

Definition style_ok (sty : Style) : Prop := color_ok (fg sty) /\ color_ok (bg sty).

Definition colors_ok (st : PState) : Prop :=
  Forall (fun sp => style_ok (style sp)) (spans st) /\ style_ok (cur st).

Lemma xterm_hex_ok (n : Z) : is_hex_color (xterm_256_to_hex n) = true.
Proof.
  destruct (Z.ltb_spec n 0); [now rewrite xterm_below|].
  destruct (Z.ltb_spec 255 n); [now rewrite xterm_above|].
  apply (range_forallb (fun k => is_hex_color (xterm_256_to_hex k)) 0 256);
    [vm_compute; reflexivity | lia].
Qed.

Lemma color_get_ok (d : list (Z * string)) (c : Z) (default : option string) :
  forallb (fun kv => is_hex_color (snd kv)) d = true ->
  color_ok default -> color_ok (color_get d c default).
Proof.
  intros Hd Hdef. unfold color_get.
  induction d as [|[k v] d IH]; [exact Hdef|].
  cbn [forallb] in Hd. apply andb_prop in Hd. destruct Hd as [Hv Hd].
  cbn [map Py.dict_get]. destruct (c =? k); [exact Hv | now apply IH].
Qed.

Lemma colors_ok_flush st : colors_ok st -> colors_ok (flush st).
Proof.
  intros [Hs Hc]. unfold flush. destruct (buf st); [now split|].
  split; cbn [spans cur]; [|exact Hc].
  apply Forall_app. split; [exact Hs|]. constructor; [|constructor].
  exact Hc.
Qed.

Lemma colors_ok_interp parts st :
  colors_ok st -> colors_ok (interp_parts parts st).
Proof.
  functional induction (interp_parts parts st); intros H; auto;
    apply IHp; apply colors_ok_flush in H; destruct H as [Hs [Hf Hb]];
    (split; [exact Hs|]); split; cbn [set_cur cur fg bg]; auto;
    try exact I;
    try (apply color_get_ok; [vm_compute; reflexivity | assumption]);
    try apply xterm_hex_ok.
Qed.

Lemma colors_ok_on_match s st i m :
  colors_ok st -> colors_ok (fst (on_match s (st, i) m)).
Proof.
  intros H. unfold on_match.
  assert (H1 : colors_ok
                 (match Str.slice s i (m_start m) with
                  | "" => st
                  | _ => buf_append st (Str.slice s i (m_start m))
                  end)).
  { destruct (Str.slice s i (m_start m)); exact H. }
  destruct (_ || _); cbn [fst].
  - apply colors_ok_flush in H1. destruct H1 as [Hs _].
    split; [exact Hs | split; exact I].
  - now apply colors_ok_interp.
Qed.

Lemma parse_ansi_to_spans_styles (s : string) :
  Forall (fun sp => style_ok (style sp)) (parse_ansi_to_spans s).
Proof.
  unfold parse_ansi_to_spans, finish.
  pose proof (fold_on_match_keeps colors_ok s
                (colors_ok_on_match s) (finditer s) init_state 0%nat) as H.
  destruct (fold_left (on_match s) (finditer s) (init_state, 0%nat)) as [st i].
  cbn [fst] in H.
  specialize (H (conj (Forall_nil _) (conj I I))).
  assert (H' : colors_ok
                 (if (i <? String.length s)%nat
                  then buf_append st (Str.drop i s) else st)).
  { destruct (i <? String.length s)%nat; exact H. }
  apply colors_ok_flush in H'. now destruct H' as [Hs _].
Qed.

(** X3. Every colour of every run is a hash sign and six lower-case
    hexadecimal digits, whatever the line holds. *)
Theorem parse_ansi_to_spans_colors (s : string) (sp : Span) :
  In sp (parse_ansi_to_spans s) ->
  color_ok (fg (style sp)) /\ color_ok (bg (style sp)).
Proof.
  intros Hin. pose proof (parse_ansi_to_spans_styles s) as H.
  rewrite Forall_forall in H. exact (H sp Hin).
Qed.

Lemma parse_ansi_to_spans_colors_witness :
  color_ok (Some "#d7af00") /\ color_ok (Some "#5f0000").
Proof.
  apply (parse_ansi_to_spans_colors
           (ESC_str ++ "[38;5;178m" ++ ESC_str ++ "[48;5;52mY")
           {| text := "Y";
              style := {| bold := false; fg := Some "#d7af00";
                          bg := Some "#5f0000" |} |}).
  left. reflexivity.
Defined.

(** ** What only a reset undoes *)

(** X4. In a parameter list without the code 0, bold stays on once it is
    on, and a foreground or background that is set stays set: no code but
    the reset turns a style off. *)
Theorem interp_parts_accumulates (parts : list Z) (st : PState) :
  Forall (fun c => c <> 0) parts ->
  (bold (cur st) = true -> bold (cur (interp_parts parts st)) = true)
  /\ (fg (cur st) <> None -> fg (cur (interp_parts parts st)) <> None)
  /\ (bg (cur st) <> None -> bg (cur (interp_parts parts st)) <> None).
Proof.
  assert (Hflush : forall x, cur (flush x) = cur x).
  { intros x. unfold flush. now destruct (buf x). }
  assert (Hget : forall d c o, o <> None -> color_get d c o <> None).
  { intros d c o Ho. unfold color_get. induction d as [|[k v] d IH]; [exact Ho|].
    cbn [map Py.dict_get]. destruct (c =? k); [discriminate | exact IH]. }
  functional induction (interp_parts parts st); intros Hall;
    try (apply Forall_inv in Hall as Hc; apply Z.eqb_eq in e0; contradiction);
    try (now auto);
    try (apply Forall_inv_tail in Hall; now auto).
  - apply Forall_inv_tail in Hall. destruct (IHp Hall) as [A [B C]].
    cbn [set_cur cur bold fg bg] in *. rewrite ?Hflush in *. repeat split; auto.
  - apply Forall_inv_tail in Hall. destruct (IHp Hall) as [A [B C]].
    cbn [set_cur cur bold fg bg] in *. rewrite ?Hflush in *. repeat split; auto.
  - apply Forall_inv_tail in Hall. destruct (IHp Hall) as [A [B C]].
    cbn [set_cur cur bold fg bg] in *. rewrite ?Hflush in *. repeat split; auto.
  - do 3 apply Forall_inv_tail in Hall. destruct (IHp Hall) as [A [B C]].
    cbn [set_cur cur bold fg bg] in *. rewrite ?Hflush in *.
    repeat split; auto. intros _. apply B. discriminate.
  - do 3 apply Forall_inv_tail in Hall. destruct (IHp Hall) as [A [B C]].
    cbn [set_cur cur bold fg bg] in *. rewrite ?Hflush in *.
    repeat split; auto. intros _. apply C. discriminate.
Qed.

Lemma interp_parts_accumulates_witness :
  bold (cur (interp_parts [34; 22; 5]
               {| spans := []; buf := [];
                  cur := {| bold := true; fg := None; bg := None |} |})) = true.
Proof.
  apply (proj1 (interp_parts_accumulates [34; 22; 5]
                  {| spans := []; buf := [];
                     cur := {| bold := true; fg := None; bg := None |} |}
                  ltac:(repeat constructor; discriminate))).
  reflexivity.
Defined.

(** ** Frames of a log in split mode *)

Definition is_header (l : string) : bool := is_some (is_step_header l).

Fixpoint all_space (s : string) : bool :=
  match s with
  | "" => true
  | String c s' => Str.is_space c && all_space s'
  end.

Lemma rstrip_empty s : Str.rstrip s = "" <-> all_space s = true.
Proof.
  induction s as [|c s IH]; [now split|]. cbn [Str.rstrip all_space].
  destruct (Str.rstrip s) eqn:E.
  - destruct (Str.is_space c); cbn [andb].
    + split; [intros _; now apply IH | reflexivity].
    + split; discriminate.
  - split; [discriminate|]. intros H. apply andb_prop in H.
    destruct H as [_ H]. apply IH in H. discriminate.
Qed.

Lemma lstrip_empty s : all_space s = true -> Str.lstrip s = "".
Proof.
  induction s as [|c s IH]; [reflexivity|]. cbn [all_space Str.lstrip].
  intros H. apply andb_prop in H. destruct H as [Hc H]. rewrite Hc. now apply IH.
Qed.

Lemma all_space_app a b : all_space (a ++ b) = all_space a && all_space b.
Proof.
  induction a as [|c a IH]; [reflexivity|]. cbn. now rewrite IH, andb_assoc.
Qed.

(** A header line holds more than white space. *)
Lemma header_not_blank l : is_header l = true -> all_space l = false.
Proof.
  intros H. destruct (all_space l) eqn:A; [|reflexivity].
  unfold is_header, is_step_header, STEP_HDR_VARIANTS in H. cbn [first_match] in H.
  unfold Str.strip in H. rewrite (lstrip_empty l A) in H. discriminate H.
Qed.

Lemma join_head sep x l : exists t, Str.join sep (x :: l) = x ++ t.
Proof.
  destruct l as [|y l]; [exists ""; cbn; now rewrite str_app_nil_r|].
  eexists. reflexivity.
Qed.

(** The positions that [enumerate] and the filter keep: increasing, inside
    the list, each the place of a header. *)
Lemma header_positions (lines : list string) : forall i,
  let idx := map fst (filter (fun '(_, l) => is_some (is_step_header l))
                             (enumerate_from i lines)) in
  StronglySorted lt idx
  /\ Forall (fun j => (i <= j < i + List.length lines)%nat
                      /\ exists l, nth_error lines (j - i) = Some l
                                   /\ is_header l = true) idx
  /\ List.length idx = List.length (filter is_header lines).
Proof.
  induction lines as [|l lines IH]; intros i idx.
  - repeat split; constructor.
  - subst idx. cbn [enumerate_from filter]. fold (is_header l).
    destruct (IH (S i)) as [Hs [Hf Hl]]. rewrite Forall_forall in Hf.
    assert (Hf' : Forall
              (fun j => (i <= j < i + List.length (l :: lines))%nat
                        /\ exists l0, nth_error (l :: lines) (j - i) = Some l0
                                      /\ is_header l0 = true)
              (map fst (filter (fun '(_, l0) => is_some (is_step_header l0))
                               (enumerate_from (S i) lines)))).
    { apply Forall_forall. intros j Hj. destruct (Hf j Hj) as [Hb [l0 [Hn Hh]]].
      split; [simpl; lia|]. exists l0. split; [|exact Hh].
      replace (j - i)%nat with (S (j - S i)) by lia. exact Hn. }
    destruct (is_header l) eqn:Hh; cbn [map fst List.length].
    + repeat split.
      * constructor; [exact Hs|]. apply Forall_forall. intros j Hj.
        destruct (Hf j Hj) as [Hb _]. lia.
      * constructor; [|exact Hf']. split; [simpl; lia|]. exists l.
        rewrite Nat.sub_diag. now split.
      * now rewrite Hl.
    + repeat split; assumption.
Qed.

Lemma consecutive_fst (l : list nat) (x : nat) :
  map fst (consecutive (l ++ [x])%list) = l.
Proof.
  induction l as [|a l IH]; [reflexivity|].
  cbn [app consecutive]. destruct (l ++ [x])%list as [|b r] eqn:E.
  - destruct l; discriminate.
  - cbn [map fst]. now rewrite IH.
Qed.

Lemma consecutive_lt (l : list nat) :
  StronglySorted lt l -> Forall (fun '(a, b) => (a < b)%nat) (consecutive l).
Proof.
  induction l as [|a l IH]; intros H; [constructor|].
  inversion H as [|? ? Hs Hall]; subst. destruct l as [|b r]; [constructor|].
  cbn [consecutive]. constructor; [now inversion Hall | now apply IH].
Qed.

Lemma list_slice_head (lines : list string) (s e : nat) (l : string) :
  nth_error lines s = Some l -> (s < e)%nat ->
  exists rest, list_slice lines s e = l :: rest.
Proof.
  intros Hn He. unfold list_slice.
  destruct (nth_error_split lines s Hn) as [l1 [l2 [E L]]]. subst lines s.
  rewrite skipn_app, skipn_all, Nat.sub_diag. cbn [app skipn].
  destruct (e - List.length l1)%nat as [|k] eqn:K; [lia|].
  cbn [firstn]. eexists; reflexivity.
Qed.

(** X5. In split mode there are as many frames as the log has header
    lines: no header is lost and no frame is made without one. *)
Theorem split_frames_by_headers_count (raw_text : string) :
  List.length (split_frames_by_headers raw_text)
  = List.length (filter is_header (splitlines raw_text)).
Proof.
  unfold split_frames_by_headers.
  set (lines := splitlines raw_text).
  destruct (header_positions lines 0) as [Hs [Hf Hl]].
  set (idx := map fst (filter (fun '(_, l) => is_some (is_step_header l))
                              (enumerate_from 0 lines))) in *.
  destruct idx as [|a idx'] eqn:E; [now rewrite <- Hl|].
  rewrite <- Hl, <- E. clear Hl.
  assert (Hsort : StronglySorted lt (idx ++ [List.length lines])%list).
  { rewrite E. clear E. revert Hs Hf. generalize (a :: idx').
    induction l as [|x l IH]; intros Hs Hf; cbn [app].
    - constructor; constructor.
    - inversion Hs as [|? ? Hs' Hall]; subst. inversion Hf as [|? ? Hx Hf']; subst.
      constructor; [now apply IH|]. apply Forall_app. split; [exact Hall|].
      constructor; [lia | constructor]. }
  pose proof (consecutive_lt _ Hsort) as Hlt.
  pose proof (consecutive_fst idx (List.length lines)) as Hfst.
  rewrite <- E in Hf.
  assert (G : forall pairs,
            Forall (fun '(a, b) => (a < b)%nat) pairs ->
            Forall (fun j => exists l, nth_error lines j = Some l
                                       /\ is_header l = true) (map fst pairs) ->
            List.length
              (flat_map (fun '(s, e) =>
                 match Str.rstrip (Str.join (String (ascii_of_nat 10) "")
                                            (list_slice lines s e)) with
                 | "" => []
                 | block => [block]
                 end) pairs) = List.length pairs).
  { induction pairs as [|[s e] pairs IH]; intros H1 H2; [reflexivity|].
    inversion H1; subst. inversion H2 as [|? ? [l [Hn Hh]] H2']; subst.
    cbn [flat_map]. rewrite length_app, IH by assumption.
    destruct (list_slice_head lines s e l Hn) as [rest Hr]; [assumption|].
    rewrite Hr. destruct (join_head (String (ascii_of_nat 10) "") l rest) as [t Ht].
    rewrite Ht. destruct (Str.rstrip (l ++ t)) eqn:R; [|reflexivity].
    apply rstrip_empty in R. rewrite all_space_app in R.
    rewrite (header_not_blank l Hh) in R. discriminate R. }
  rewrite G.
  - rewrite <- (length_map fst), Hfst. reflexivity.
  - exact Hlt.
  - rewrite Hfst. eapply Forall_impl; [|exact Hf]. cbn beta.
    intros j [_ [l [Hn Hh]]]. exists l. rewrite Nat.sub_0_r in Hn. now split.
Qed.

(** *** The first line of a frame *)

Definition not_break (c : ascii) : bool := negb (is_linebreak c).

Fixpoint no_break (s : string) : bool :=
  match s with
  | "" => true
  | String c s' => not_break c && no_break s'
  end.

Definition LF : string := String (ascii_of_nat 10) "".

(** The text up to the first line break. *)
Definition first_line (s : string) : string := fst (Str.span not_break s).

Lemma splitlines_no_break (s : string) : forall after_cr,
  Forall (fun l => no_break l = true) (splitlines_from after_cr s).
Proof.
  induction s as [|c s IH]; intros after_cr; cbn [splitlines_from]; [constructor|].
  destruct (after_cr && Ascii.eqb c (ascii_of_nat 10)); [apply IH|].
  destruct (is_linebreak c) eqn:B.
  - constructor; [reflexivity | apply IH].
  - specialize (IH false). destruct (splitlines_from false s) as [|l ls].
    + constructor; [|constructor]. cbn. unfold not_break. now rewrite B.
    + inversion IH; subst. constructor; [|assumption].
      cbn. unfold not_break. now rewrite B.
Qed.

Lemma splitlines_head (s : string) :
  s <> "" -> exists rest, splitlines s = first_line s :: rest.
Proof.
  unfold splitlines, first_line. induction s as [|c s IH]; [congruence|].
  intros _. cbn [splitlines_from Str.span andb]. unfold not_break at 1.
  destruct (is_linebreak c); cbn [negb].
  - eexists; reflexivity.
  - destruct s as [|d s'].
    + cbn. eexists; reflexivity.
    + destruct IH as [rest IH]; [discriminate|]. rewrite IH.
      destruct (Str.span not_break (String d s')) as [a b].
      cbn [fst]. eexists; reflexivity.
Qed.

Lemma first_line_whole (l : string) : no_break l = true -> first_line l = l.
Proof.
  unfold first_line. induction l as [|c l IH]; [reflexivity|].
  cbn [no_break Str.span]. intros H. apply andb_prop in H. destruct H as [Hc H].
  rewrite Hc. specialize (IH H). destruct (Str.span not_break l). cbn [fst] in *.
  now rewrite IH.
Qed.

Lemma first_line_break (l t : string) :
  no_break l = true -> first_line (l ++ LF ++ t) = l.
Proof.
  unfold first_line. induction l as [|c l IH]; [reflexivity|].
  cbn [no_break Str.span append]. intros H. apply andb_prop in H.
  destruct H as [Hc H]. rewrite Hc. specialize (IH H).
  destruct (Str.span not_break (l ++ LF ++ t)). cbn [fst] in *. now rewrite IH.
Qed.

Lemma no_break_prefix (a w : string) : no_break (a ++ w) = true -> no_break a = true.
Proof.
  induction a as [|c a IH]; [reflexivity|]. cbn [append no_break].
  intros H. apply andb_prop in H. destruct H as [Hc H]. now rewrite Hc, IH.
Qed.

(** *** Stripping on both sides *)

Lemma rstrip_app (a b : string) :
  Str.rstrip (a ++ b) =
  match Str.rstrip b with
  | "" => Str.rstrip a
  | r => a ++ r
  end.
Proof.
  induction a as [|c a IH]; cbn [append].
  - now destruct (Str.rstrip b).
  - cbn [Str.rstrip]. rewrite IH. destruct (Str.rstrip b) as [|x r]; [reflexivity|].
    destruct a; reflexivity.
Qed.

Lemma rstrip_idem (s : string) : Str.rstrip (Str.rstrip s) = Str.rstrip s.
Proof.
  induction s as [|c s IH]; [reflexivity|]. cbn [Str.rstrip].
  destruct (Str.rstrip s) as [|x r] eqn:E.
  - destruct (Str.is_space c) eqn:C; [reflexivity|]. cbn [Str.rstrip]. now rewrite C.
  - change (Str.rstrip (String c (String x r)))
      with (match Str.rstrip (String x r) with
            | "" => if Str.is_space c then "" else String c ""
            | r0 => String c r0
            end).
    now rewrite IH.
Qed.

Lemma lstrip_rstrip (s : string) :
  Str.lstrip (Str.rstrip s) = Str.rstrip (Str.lstrip s).
Proof.
  induction s as [|c s IH]; [reflexivity|]. cbn [Str.rstrip Str.lstrip].
  destruct (Str.is_space c) eqn:C.
  - destruct (Str.rstrip s) as [|x r] eqn:E.
    + rewrite <- IH. reflexivity.
    + cbn [Str.lstrip]. rewrite C. exact IH.
  - assert (R : match Str.rstrip s with
                | "" => String c ""
                | r => String c r
                end = String c (Str.rstrip s)) by now destruct (Str.rstrip s).
    rewrite R. cbn [Str.lstrip Str.rstrip]. rewrite C. now rewrite R.
Qed.

Lemma strip_rstrip (s : string) : Str.strip (Str.rstrip s) = Str.strip s.
Proof. unfold Str.strip. now rewrite lstrip_rstrip, rstrip_idem. Qed.

Lemma is_step_header_strip (a b : string) :
  Str.strip a = Str.strip b -> is_step_header a = is_step_header b.
Proof.
  intros H. unfold is_step_header, STEP_HDR_VARIANTS. cbn [first_match].
  now rewrite H.
Qed.

(** The first line of a block that starts with the line [l]. *)
Lemma block_first_line (l t : string) :
  no_break l = true -> all_space l = false ->
  (t = "" \/ exists t', t = LF ++ t') ->
  Str.rstrip (l ++ t) <> ""
  /\ Str.strip (first_line (Str.rstrip (l ++ t))) = Str.strip l.
Proof.
  intros Hb Hs Ht.
  assert (Hl : Str.rstrip l <> "").
  { intros E. apply rstrip_empty in E. congruence. }
  assert (Hrl : no_break (Str.rstrip l) = true).
  { destruct (rstrip_prefix l) as [w Hw]. apply (no_break_prefix _ w).
    now rewrite <- Hw. }
  rewrite rstrip_app. destruct (Str.rstrip t) as [|x r] eqn:E.
  - split; [exact Hl|]. rewrite first_line_whole by exact Hrl. apply strip_rstrip.
  - destruct Ht as [Ht | [t' Ht]]; [subst t; discriminate|].
    subst t. split; [destruct l; discriminate|].
    assert (Hx : exists r', String x r = LF ++ r').
    { unfold LF in E. cbn [append Str.rstrip] in E.
      destruct (Str.rstrip t'); [destruct (Str.is_space _); inversion E|];
        inversion E; subst; eexists; reflexivity. }
    destruct Hx as [r' Hx]. rewrite Hx. now rewrite first_line_break.
Qed.

Lemma sorted_with_end (l : list nat) (n : nat) :
  StronglySorted lt l -> Forall (fun j => (j < n)%nat) l ->
  StronglySorted lt (l ++ [n])%list.
Proof.
  induction l as [|x l IH]; intros Hs Hf; cbn [app].
  - constructor; constructor.
  - inversion Hs as [|? ? Hs' Hall]; subst. inversion Hf; subst.
    constructor; [now apply IH|]. apply Forall_app. split; [exact Hall|].
    constructor; [assumption | constructor].
Qed.

(** Every frame of split mode is cut from the log at a header line. *)
Lemma split_frames_blocks (raw_text : string) (b : string) :
  In b (split_frames_by_headers raw_text) ->
  exists l t,
    is_header l = true /\ no_break l = true
    /\ (t = "" \/ exists t', t = LF ++ t')
    /\ b = Str.rstrip (l ++ t).
Proof.
  unfold split_frames_by_headers.
  set (lines := splitlines raw_text).
  destruct (header_positions lines 0) as [Hs [Hf _]].
  set (idx := map fst (filter (fun '(_, l) => is_some (is_step_header l))
                              (enumerate_from 0 lines))) in *.
  destruct idx as [|a idx'] eqn:E; [contradiction|]. rewrite <- E in *. clear E.
  assert (Hsort : StronglySorted lt (idx ++ [List.length lines])%list).
  { apply sorted_with_end; [exact Hs|]. eapply Forall_impl; [|exact Hf].
    cbn beta. intros j [Hj _]. lia. }
  pose proof (consecutive_lt _ Hsort) as Hlt.
  pose proof (consecutive_fst idx (List.length lines)) as Hfst.
  intros Hin. apply in_flat_map in Hin. destruct Hin as [[s e] [Hp Hb]].
  rewrite Forall_forall in Hlt, Hf. specialize (Hlt (s, e) Hp). cbn beta in Hlt.
  assert (Hsi : In s idx).
  { rewrite <- Hfst. change s with (fst (s, e)). now apply in_map. }
  destruct (Hf s Hsi) as [_ [l [Hn Hh]]]. rewrite Nat.sub_0_r in Hn.
  destruct (list_slice_head lines s e l Hn Hlt) as [rest Hr]. rewrite Hr in Hb.
  assert (Hnb : no_break l = true).
  { pose proof (splitlines_no_break raw_text false) as F.
    rewrite Forall_forall in F. apply F. fold (splitlines raw_text).
    fold lines. now apply nth_error_In with s. }
  assert (Hj : exists t, Str.join LF (l :: rest) = l ++ t
                         /\ (t = "" \/ exists t', t = LF ++ t')).
  { destruct rest as [|y rest].
    - exists "". split; [cbn; now rewrite str_app_nil_r | now left].
    - eexists. split; [reflexivity | right; eexists; reflexivity]. }
  destruct Hj as [t [Hj Ht]]. fold LF in Hb. rewrite Hj in Hb.
  exists l, t. repeat split; try assumption.
  destruct (Str.rstrip (l ++ t)); [contradiction|].
  destruct Hb as [Hb | []]. now symmetry.
Qed.

(** X6. Every frame that split mode cuts from a log begins with its header
    line, so [parse_metrics] has a burning-cells value for each of them. *)
Theorem split_frames_have_burning (raw_text : string) :
  Forall (fun v => v <> None)
         (burning_cells (parse_metrics (split_frames_by_headers raw_text))).
Proof.
  unfold parse_metrics. cbn [burning_cells]. rewrite map_map.
  apply Forall_forall. intros v Hv. apply in_map_iff in Hv.
  destruct Hv as [b [Hv Hb]]. subst v.
  destruct (split_frames_blocks raw_text b Hb) as [l [t [Hh [Hnb [Ht E]]]]].
  destruct (block_first_line l t Hnb (header_not_blank l Hh) Ht) as [Hne Hst].
  rewrite <- E in Hne, Hst.
  unfold block_metrics. destruct (splitlines_head b Hne) as [rest Hsp].
  rewrite Hsp. rewrite (is_step_header_strip _ _ Hst).
  destruct (fold_left scan_line _ _) as [nb ex]. cbn [fst].
  unfold is_header in Hh. destruct (is_step_header l); [discriminate | discriminate].
Qed.

(** ** The window of the metrics *)

Lemma firstn_skipn_swap {A} (n m : nat) (l : list A) :
  firstn m (skipn n l) = skipn n (firstn (n + m) l).
Proof.
  revert l; induction n as [|n IH]; intros l; [reflexivity|].
  destruct l as [|x l]; [now rewrite firstn_nil|]. cbn. apply IH.
Qed.

(** X7. The metrics of a frame are read from its first six lines alone:
    the header and the five lines after it. *)
Theorem block_metrics_window (b1 b2 : string) :
  firstn 6 (splitlines b1) = firstn 6 (splitlines b2) ->
  block_metrics b1 = block_metrics b2.
Proof.
  intros H. unfold block_metrics, list_slice.
  change (6 - 1)%nat with 5%nat. rewrite !(firstn_skipn_swap 1 5). cbn [Nat.add].
  rewrite H.
  assert (E : match splitlines b1 with
              | [] => None
              | l0 :: _ => option_map snd (is_step_header l0)
              end
              = match splitlines b2 with
                | [] => None
                | l0 :: _ => option_map snd (is_step_header l0)
                end).
  { destruct (splitlines b1), (splitlines b2); cbn [firstn] in H;
      try discriminate; [reflexivity|]. now inversion H. }
  now rewrite E.
Qed.

Lemma block_metrics_window_witness :
  block_metrics ("a" ++ LF ++ "b" ++ LF ++ "c" ++ LF ++ "d" ++ LF ++ "e" ++ LF
                 ++ "f" ++ LF ++ "Extinguished=7")
  = block_metrics ("a" ++ LF ++ "b" ++ LF ++ "c" ++ LF ++ "d" ++ LF ++ "e" ++ LF
                   ++ "f" ++ LF ++ "Natural=9").
Proof. apply block_metrics_window. reflexivity. Defined.

(** ** Annotation lines *)

(** The lines that count as notes: stripped, not empty, no step marker. *)
Definition is_marker (t : string) : bool := Str.startswith (Str.lower t) "step ".

Definition note_lines (lines : list string) : list string :=
  filter (fun t => negb (is_marker t) && negb (String.eqb t ""))
         (map Str.strip lines).

Lemma agent_status_step_eq steps acc line :
  agent_status_step (steps, acc) line =
  if is_marker (Str.strip line) then
    match acc with
    | [] => (steps, acc)
    | _ => ((steps ++ [acc])%list, [])
    end
  else match Str.strip line with
       | "" => (steps, acc)
       | _ => (steps, (acc ++ [Str.strip line])%list)
       end.
Proof. reflexivity. Qed.

Lemma note_lines_cons line lines :
  note_lines (line :: lines) =
  if negb (is_marker (Str.strip line)) && negb (String.eqb (Str.strip line) "")
  then Str.strip line :: note_lines lines else note_lines lines.
Proof. reflexivity. Qed.

Lemma agent_status_fold (lines : list string) : forall steps acc,
  Forall (fun st => st <> []) steps ->
  let r := fold_left agent_status_step lines (steps, acc) in
  (List.concat (fst r) ++ snd r
   = List.concat steps ++ acc ++ note_lines lines)%list
  /\ Forall (fun st => st <> []) (fst r)
  /\ (List.length (fst r) + match snd r with [] => 0 | _ => 1 end
      <= List.length steps + 1
         + List.length (filter is_marker (map Str.strip lines)))%nat.
Proof.
  induction lines as [|line lines IH]; intros steps acc Hs; cbn zeta.
  - cbn [fold_left fst snd note_lines map filter List.length].
    rewrite app_nil_r. repeat split; [assumption | destruct acc; lia].
  - cbn [fold_left]. rewrite agent_status_step_eq, note_lines_cons.
    cbn [map filter].
    destruct (is_marker (Str.strip line)) eqn:M; cbn [negb andb].
    + destruct acc as [|a acc'].
      * destruct (IH steps [] Hs) as [A [B C]]. cbn zeta in *.
        repeat split; [exact A | exact B |]. cbn [List.length]. lia.
      * assert (Hs' : Forall (fun st => st <> []) (steps ++ [a :: acc'])%list).
        { apply Forall_app. split; [exact Hs|].
          constructor; [discriminate | constructor]. }
        destruct (IH (steps ++ [a :: acc'])%list [] Hs') as [A [B C]].
        cbn zeta in *. repeat split; [|exact B|].
        -- rewrite A, concat_app. cbn [List.concat app]. rewrite app_nil_r.
           now rewrite <- !app_assoc.
        -- rewrite length_app in C. cbn [List.length] in *. lia.
    + destruct (Str.strip line) as [|c t] eqn:T.
      * cbn [String.eqb negb]. destruct (IH steps acc Hs) as [A [B C]].
        cbn zeta in *. repeat split; assumption.
      * cbn [String.eqb negb].
        destruct (IH steps (acc ++ [String c t])%list Hs) as [A [B C]].
        cbn zeta in *. repeat split; [|exact B|exact C].
        rewrite A. now rewrite <- !app_assoc.
Qed.

(** X8. The annotation steps hold exactly the stripped, non-empty lines that
    are no step marker, in their order; no step is empty; and there is at
    most one step more than there are step markers. *)
Theorem parse_agent_status_lines (txt : string) :
  List.concat (_parse_agent_status txt) = note_lines (splitlines txt)
  /\ Forall (fun st => st <> []) (_parse_agent_status txt)
  /\ (List.length (_parse_agent_status txt)
      <= S (List.length (filter is_marker (map Str.strip (splitlines txt)))))%nat.
Proof.
  unfold _parse_agent_status.
  destruct (agent_status_fold (splitlines txt) [] [] (Forall_nil _)) as [A [B C]].
  cbn zeta in *.
  destruct (fold_left agent_status_step (splitlines txt) ([], [])) as [steps acc].
  cbn [fst snd List.concat app List.length] in *.
  destruct acc as [|a acc].
  - rewrite app_nil_r in A. repeat split; [exact A | exact B | lia].
  - repeat split.
    + rewrite concat_app. cbn [List.concat]. rewrite app_nil_r. exact A.
    + apply Forall_app. split; [exact B|].
      constructor; [discriminate | constructor].
    + rewrite length_app. cbn [List.length]. lia.
Qed.

(** ** The range of an export *)

(** X9. With at least one frame, the range of an export lies inside
    [1..n] and is never empty; a requested range that is already inside
    [1..n] is taken as it is; a missing or zero start means 1 and a missing
    or zero end means [n]. *)
Theorem export_range_clamped (cfg : ExportReq) (n : Z) :
  0 < n ->
  let (s, e) := export_range cfg n in
  1 <= s <= e /\ e <= n
  /\ (forall a b, start cfg = Some a -> end_ cfg = Some b ->
        1 <= a <= b -> b <= n -> s = a /\ e = b)
  /\ (start cfg = None \/ start cfg = Some 0 -> s = 1)
  /\ (end_ cfg = None \/ end_ cfg = Some 0 -> e = n).
Proof.
  intros Hn. unfold export_range, int_or.
  split; [lia | split; [lia | split; [|split]]].
  - intros a b Ha Hb Hab Hbn. rewrite Ha, Hb.
    destruct (Z.eqb_spec a 0), (Z.eqb_spec b 0); lia.
  - intros [H|H]; rewrite H; cbn; lia.
  - intros [H|H]; rewrite H; cbn; lia.
Qed.

Lemma export_range_clamped_witness :
  let (s, e) := export_range {| start := Some 0; end_ := Some 9; fps := 2 # 1;
                                font_size := 14; bg_color := "#111111" |} 3 in
  1 <= s <= e /\ e <= 3
  /\ (forall a b, Some 0 = Some a -> Some 9 = Some b ->
        1 <= a <= b -> b <= 3 -> s = a /\ e = b)
  /\ (Some 0 = None \/ Some 0 = Some 0 -> s = 1)
  /\ (Some 9 = None \/ Some 9 = Some 0 -> e = 3).
Proof.
  apply (export_range_clamped
           {| start := Some 0; end_ := Some 9; fps := 2 # 1;
              font_size := 14; bg_color := "#111111" |} 3).
  lia.
Defined.

(** ** The duration of a frame *)



(** ** Sizing a line for the image *)

Lemma str_length_app (a b : string) :
  String.length (a ++ b) = (String.length a + String.length b)%nat.
Proof. induction a as [|c a IH]; simpl; [reflexivity | now rewrite IH]. Qed.

Lemma join_empty_length (l : list string) :
  String.length (Str.join "" l) = list_sum (map String.length l).
Proof.
  induction l as [|x l IH]; [reflexivity|].
  rewrite join_empty_cons, str_length_app, IH. reflexivity.
Qed.

Lemma sgr_strip_length_le (n : nat) : forall s,
  (String.length s <= n)%nat -> (String.length (sgr_strip s) <= String.length s)%nat.
Proof.
  induction n as [|n IH]; intros s Hn.
  - destruct s; [simp sgr_strip; simpl; lia | simpl in Hn; lia].
  - destruct s as [|c s]; [simp sgr_strip; simpl; lia|].
    rewrite sgr_strip_cons.
    destruct (match_sgr (String c s)) as [[codes rest]|] eqn:M.
    + apply match_sgr_length in M. simpl in Hn, M.
      etransitivity; [apply IH; lia | simpl; lia].
    + simpl in *. apply le_n_S. apply IH. lia.
Qed.

(** X11. The width that [ansi_to_image] reserves for a line counts exactly
    the characters of the runs it then draws, and never more than the line
    has characters. *)
Theorem visual_len_runs (s : string) :
  visual_len s
  = list_sum (map (fun sp => String.length (text sp)) (parse_ansi_to_spans s))
  /\ (visual_len s <= String.length s)%nat.
Proof.
  split.
  - unfold visual_len, parse_ansi_to_spans, finditer.
    pose proof (scan_text s (String.length s) s 0 0 init_state
                  (Nat.le_refl _) eq_refl (Nat.le_refl _) eq_refl) as H.
    rewrite slice_empty in H. cbn [pending init_state spans buf runs_text
                                   map Str.join append] in H.
    rewrite <- H. unfold runs_text. rewrite join_empty_length, map_map.
    reflexivity.
  - apply (sgr_strip_length_le (String.length s)). lia.
Qed.

(** ** The font of the images *)

Section FontProperties.

Variable Font : Type.
Variable truetype : string -> Z -> Py.result Font.
Variable load_default : Font.

(** X12. The font is loaded once: whatever size a later call asks for, it
    gets the font of the first call, and the global keeps it. *)
Theorem load_font_first_size_wins (p1 p2 : Z) (g : option Font) :
  let (f1, g1) := _load_font Font truetype load_default p1 g in
  g1 = Some f1 /\ _load_font Font truetype load_default p2 g1 = (f1, g1).
Proof.
  unfold _load_font. destruct g as [f|]; [split; reflexivity|].
  destruct (truetype "DejaVuSansMono.ttf" p1); split; reflexivity.
Qed.

End FontProperties.

(** ** The store and the requests, once more *)



Section ServerMore.

Variable json_loads : string -> Py.result json.
Variable fs : string -> option (list Byte.byte).
Variable decode_utf8 : list Byte.byte -> option string.
Variable decode_utf8_replace : list Byte.byte -> string.
Variable splitext : string -> string * string.

(** X13. A store is in exactly one mode. It is in random-access mode when
    the index gave at least one entry, and then it holds no split frames;
    otherwise it holds no entry and its frames are those that the headers
    cut from the text of the log. Its length counts the entries or the
    frames accordingly. *)
Theorem FrameSource_init_modes (path : string) (idx : option string)
  (src : FrameSource) :
  FrameSource_init json_loads fs decode_utf8 path idx = Py.Ok src ->
  ans_path src = path
  /\ (_indexed src = true ->
      _frames src = [] /\ _entries src <> []
      /\ exists p, truthy_path idx = Some p /\ isfile fs p = true
                   /\ load_index_jsonl json_loads fs decode_utf8 p
                      = Py.Ok (_entries src))
  /\ (_indexed src = false ->
      _entries src = []
      /\ exists raw, open_read_text fs decode_utf8 path = Py.Ok raw
                     /\ _frames src = split_frames_by_headers raw)
  /\ source_len src
     = Z.of_nat (List.length (_entries src) + List.length (_frames src)).
Proof.
  unfold FrameSource_init.
  assert (Split : forall entries,
            entries = [] ->
            (raw <- open_read_text fs decode_utf8 path ;;
             Py.Ok {| ans_path := path; _indexed := false;
                      _frames := split_frames_by_headers raw;
                      _entries := entries |}) = Py.Ok src ->
            ans_path src = path
            /\ (_indexed src = true ->
                _frames src = [] /\ _entries src <> []
                /\ exists p, truthy_path idx = Some p /\ isfile fs p = true
                             /\ load_index_jsonl json_loads fs decode_utf8 p
                                = Py.Ok (_entries src))
            /\ (_indexed src = false ->
                _entries src = []
                /\ exists raw, open_read_text fs decode_utf8 path = Py.Ok raw
                               /\ _frames src = split_frames_by_headers raw)
            /\ source_len src
               = Z.of_nat (List.length (_entries src) + List.length (_frames src))).
  { intros entries He. subst entries.
    destruct (open_read_text fs decode_utf8 path) as [raw|e]; [|discriminate].
    cbn [Py.bind]. intros H; inversion H; subst; clear H.
    unfold source_len. cbn [ans_path _indexed _frames _entries List.length].
    split; [reflexivity | split; [discriminate | split; [|lia]]].
    intros _. split; [reflexivity|]. exists raw. now split. }
  destruct (truthy_path idx) as [p|] eqn:T; [|now apply Split].
  destruct (isfile fs p) eqn:I; [|now apply Split].
  destruct (load_index_jsonl json_loads fs decode_utf8 p) as [entries|e] eqn:L;
    [|discriminate]. cbn [Py.bind].
  destruct (Nat.ltb_spec 0 (List.length entries)) as [Hlt|Hge].
  - intros H; inversion H; subst; clear H.
    unfold source_len. cbn [ans_path _indexed _frames _entries List.length].
    split; [reflexivity | split; [|split; [discriminate | lia]]].
    intros _. split; [reflexivity|]. split.
    + destruct entries; [simpl in Hlt; lia | discriminate].
    + exists p. now repeat split.
  - apply Split. destruct entries; [reflexivity | simpl in Hge; lia].
Qed.




End ServerMore.

(** ** The archive of still images *)

(** The number that a name of the archive carries after [frame_]. *)
Definition frame_number (name : string) : Z :=
  Str.int (fst (Str.span Str.is_digit (Str.drop 6 name))).

Lemma int_acc_uint (d : Decimal.uint) : forall acc,
  Str.int_acc (Zpos acc) (DecimalString.NilEmpty.string_of_uint d)
  = Zpos (Pos.of_uint_acc d acc).
Proof.
  induction d; intros acc; cbn [DecimalString.NilEmpty.string_of_uint
                                 Str.int_acc Pos.of_uint_acc];
    [reflexivity | ..]; rewrite <- IHd; f_equal;
    rewrite ?Pos2Z.inj_add, ?Pos2Z.inj_mul;
    match goal with
    | |- context [Str.code ?c] =>
        let v := eval vm_compute in (Str.code c) in change (Str.code c) with v
    end; lia.
Qed.

Lemma int_uint (d : Decimal.uint) :
  Str.int (DecimalString.NilEmpty.string_of_uint d) = Z.of_N (Pos.of_uint d).
Proof.
  unfold Str.int. induction d;
    cbn [DecimalString.NilEmpty.string_of_uint Str.int_acc Pos.of_uint];
    [reflexivity | exact IHd | ..];
    cbn [Z.of_N]; rewrite <- int_acc_uint; reflexivity.
Qed.

Lemma uint_all_digits (d : Decimal.uint) :
  Str.all_digits (DecimalString.NilEmpty.string_of_uint d) = true.
Proof. induction d; cbn; auto. Qed.

Lemma str_int_digits (k : Z) :
  0 <= k -> Str.all_digits (Py.str_int k) = true /\ Str.int (Py.str_int k) = k.
Proof.
  intros Hk. unfold Py.str_int. destruct k as [|p|p]; [now split | | lia].
  cbn [Z.to_int DecimalString.NilZero.string_of_int].
  unfold DecimalString.NilZero.string_of_uint.
  pose proof (Unsigned.to_uint_nonnil p) as Hn.
  destruct (Pos.to_uint p) eqn:E; [congruence | ..]; rewrite <- E;
    (split; [apply uint_all_digits |
             rewrite int_uint, Unsigned.of_to; reflexivity]).
Qed.

Lemma zeros_digits (n : nat) (s : string) :
  Str.all_digits (zeros n ++ s) = Str.all_digits s
  /\ forall acc, acc = 0 -> Str.int_acc acc (zeros n ++ s) = Str.int_acc 0 s.
Proof.
  induction n as [|n [IH1 IH2]]; [split; [reflexivity | now intros acc ->]|].
  split; [exact IH1|]. intros acc ->. cbn. now apply IH2.
Qed.

Lemma span_digits (ds rest : string) :
  Str.all_digits ds = true ->
  match rest with String c _ => Str.is_digit c = false | "" => True end ->
  Str.span Str.is_digit (ds ++ rest) = (ds, rest).
Proof.
  intros Hd Hr. induction ds as [|c ds IH]; cbn [append].
  - destruct rest as [|c r]; [reflexivity|]. cbn. now rewrite Hr.
  - cbn [Str.all_digits] in Hd. apply andb_prop in Hd. destruct Hd as [Hc Hd].
    cbn [Str.span]. rewrite Hc, (IH Hd). reflexivity.
Qed.

Lemma frame_number_of_name (k : Z) :
  0 <= k -> frame_number (frame_name k) = k.
Proof.
  intros Hk. unfold frame_number, frame_name, format_05d.
  destruct (Z.ltb_spec k 0); [lia|]. rewrite Z.abs_eq by lia.
  destruct (str_int_digits k Hk) as [Hd Hi].
  destruct (zeros_digits (5 - String.length (Py.str_int k)) (Py.str_int k))
    as [Z1 Z2].
  cbn [append Str.drop].
  rewrite span_digits; [| now rewrite Z1 | reflexivity].
  cbn [fst]. unfold Str.int. rewrite Z2 by reflexivity. exact Hi.
Qed.

(** X16. The name that the archive gives the image of frame [k] carries
    [k] itself: read back, the digits after [frame_] are the frame number,
    so two frames never share a name. *)
Theorem frame_name_number (j k : Z) :
  0 <= j -> 0 <= k ->
  frame_number (frame_name k) = k
  /\ (frame_name j = frame_name k -> j = k).
Proof.
  intros Hj Hk. split; [now apply frame_number_of_name|].
  intros E. rewrite <- (frame_number_of_name j Hj), E.
  now apply frame_number_of_name.
Qed.

Lemma frame_name_number_witness :
  frame_number (frame_name 42) = 42
  /\ (frame_name 100000 = frame_name 42 -> 100000 = 42).
Proof. apply (frame_name_number 100000 42); lia. Defined.



Section ArchiveProperties.

Variable fs : string -> option (list Byte.byte).
Variable decode_utf8_replace : list Byte.byte -> string.
Variable Image : Type.
Variable ansi_to_image : string -> Z -> string -> Image.
Variable png_bytes : Image -> list Byte.byte.



End ArchiveProperties.

(** ** The further properties on the small machine *)

Definition sample_split_source : FrameSource :=
  {| ans_path := "runlog"; _indexed := false;
     _frames := split_frames_by_headers Sample.log_text; _entries := [] |}.


Lemma FrameSource_init_modes_witness :
  _indexed sample_split_source = false
  /\ _entries sample_split_source = []
  /\ source_len sample_split_source = 3.
Proof.
  destruct (FrameSource_init_modes Sample.json_loads Sample.fs Sample.decode_utf8
              "runlog" None sample_split_source)
    as [_ [_ [Hsplit Hlen]]].
  - vm_compute. reflexivity.
  - split; [reflexivity|]. destruct (Hsplit eq_refl) as [He _].
    split; [exact He|]. rewrite Hlen. vm_compute. reflexivity.
Defined.



(** ** Headers with their escape codes *)

(** A header of variant A with both escape codes: bold on, [Step k], reset,
    the number of burning cells. *)
Definition header_line (k x : Z) : string :=
  ESC_str ++ "[1mStep " ++ Py.str_int k ++ ESC_str ++ "[0m: Burning cells = "
  ++ Py.str_int x.













(** ** The markup of a frame *)

(** How often a character occurs in a string. *)
Fixpoint count_char (c : ascii) (s : string) : nat :=
  match s with
  | "" => O
  | String a s' => ((if Ascii.eqb a c then 1 else 0) + count_char c s')%nat
  end.

(** The two characters that delimit a tag. *)
Definition tag_char (c : ascii) : Prop := c = "<"%char \/ c = ">"%char.

Lemma count_char_app (c : ascii) (a b : string) :
  count_char c (a ++ b) = (count_char c a + count_char c b)%nat.
Proof.
  induction a as [|x a IH]; [reflexivity|]. cbn [append count_char].
  rewrite IH. lia.
Qed.

Lemma list_sum_cons (x : nat) (l : list nat) :
  list_sum (x :: l) = (x + list_sum l)%nat.
Proof. reflexivity. Qed.

Lemma count_char_join (c : ascii) (sep : string) (l : list string) :
  count_char c (Str.join sep l)
  = (list_sum (map (count_char c) l) + pred (List.length l) * count_char c sep)%nat.
Proof.
  induction l as [|x l IH]; [reflexivity|].
  destruct l as [|y l]; [cbn [Str.join map List.length pred]; rewrite list_sum_cons; cbn [list_sum fold_right]; lia|].
  change (Str.join sep (x :: y :: l)) with (x ++ sep ++ Str.join sep (y :: l)).
  rewrite !count_char_app, IH. cbn [map List.length pred]. rewrite !list_sum_cons. lia.
Qed.

Lemma count_char_none (c : ascii) (l : list string) :
  Forall (fun b => count_char c b = O) l -> list_sum (map (count_char c) l) = O.
Proof.
  induction 1 as [|b l Hb _ IH]; [reflexivity|].
  cbn [map]. rewrite list_sum_cons. lia.
Qed.

Lemma html_escape_no_tag (c : ascii) (s : string) :
  tag_char c -> count_char c (html_escape s) = O.
Proof.
  intros Hc. induction s as [|a s IH]; [reflexivity|]. cbn [html_escape].
  rewrite count_char_app, IH, Nat.add_0_r.
  repeat match goal with
         | |- context [if Ascii.eqb a ?k then _ else _] =>
             destruct (Ascii.eqb_spec a k)
         end;
    try (destruct Hc; subst c; reflexivity).
  cbn [count_char]. destruct (Ascii.eqb_spec a c) as [E|E]; [|reflexivity].
  destruct Hc; subst; congruence.
Qed.

Lemma lower_hex_no_tag (c : ascii) (s : string) :
  tag_char c -> all_lower_hex s = true -> count_char c s = O.
Proof.
  intros Hc. induction s as [|a s IH]; [reflexivity|]. cbn [all_lower_hex count_char].
  intros H. apply andb_prop in H. destruct H as [Ha H]. rewrite (IH H).
  destruct (Ascii.eqb_spec a c) as [E|E]; [|reflexivity].
  destruct Hc; subst; discriminate Ha.
Qed.

Lemma color_no_tag (c : ascii) (col : string) :
  tag_char c -> is_hex_color col = true -> count_char c col = O.
Proof.
  intros Hc H. destruct col as [|a r]; [discriminate H|]. cbn [is_hex_color] in H.
  apply andb_prop in H. destruct H as [H Hr]. apply andb_prop in H.
  destruct H as [Ha _]. cbn [count_char]. rewrite (lower_hex_no_tag c r Hc Hr).
  apply Ascii.eqb_eq in Ha. subst a. destruct Hc; subst c; reflexivity.
Qed.

Lemma truthy_color_ok (c : option string) (col : string) :
  color_ok c -> truthy_color c = Some col -> is_hex_color col = true.
Proof.
  intros H E. destruct c as [[|a r]|]; cbn in E; try discriminate;
    inversion E; subst; exact H.
Qed.

Lemma span_html_tags (c : ascii) (sp : Span) :
  tag_char c -> style_ok (style sp) -> count_char c (span_html sp) = 2%nat.
Proof.
  intros Hc [Hf Hb]. unfold span_html. cbv zeta.
  set (bits := (_ ++ _ ++ _)%list).
  assert (Hbits : Forall (fun b => count_char c b = O) bits).
  { subst bits. apply Forall_app; split; [|apply Forall_app; split].
    - destruct (truthy_color (fg (style sp))) as [col|] eqn:E; constructor; [|constructor].
      rewrite count_char_app, (color_no_tag c col Hc (truthy_color_ok _ _ Hf E)).
      destruct Hc; subst c; reflexivity.
    - destruct (truthy_color (bg (style sp))) as [col|] eqn:E; constructor; [|constructor].
      rewrite count_char_app, (color_no_tag c col Hc (truthy_color_ok _ _ Hb E)).
      destruct Hc; subst c; reflexivity.
    - destruct (bold (style sp)); constructor; [|constructor].
      destruct Hc; subst c; reflexivity. }
  clearbody bits.
  assert (Hattr : count_char c
                    (match bits with
                     | [] => ""
                     | _ => " style=" ++ dquote ++ Str.join ";" bits ++ dquote
                     end) = O).
  { destruct bits as [|b bits']; [reflexivity|].
    rewrite !count_char_app, count_char_join, (count_char_none c _ Hbits).
    destruct Hc; subst c; cbn; lia. }
  rewrite !count_char_app, Hattr, (html_escape_no_tag c _ Hc).
  destruct Hc; subst c; reflexivity.
Qed.

Lemma line_html_tags (c : ascii) (sps : list Span) :
  tag_char c -> Forall (fun sp => style_ok (style sp)) sps ->
  count_char c (match Str.join "" (map span_html sps) with
                | "" => "&nbsp;"
                | parts => parts
                end) = (2 * List.length sps)%nat.
Proof.
  intros Hc H.
  assert (E : count_char c (Str.join "" (map span_html sps)) = (2 * List.length sps)%nat).
  { induction H as [|sp sps Hsp _ IH]; [reflexivity|].
    cbn [map]. rewrite join_empty_cons, count_char_app, IH, (span_html_tags c sp Hc Hsp).
    cbn [List.length]. lia. }
  destruct (Str.join "" (map span_html sps)) eqn:J; [|exact E].
  rewrite <- E. destruct Hc; subst c; reflexivity.
Qed.

Lemma ansi_to_html_tags (c : ascii) (s : string) :
  tag_char c ->
  count_char c (ansi_to_html s)
  = (2 * list_sum (map (fun l => List.length (parse_ansi_to_spans l)) (splitlines s))
     + pred (List.length (splitlines s)))%nat.
Proof.
  intros Hc. unfold ansi_to_html. rewrite count_char_join, length_map, map_map.
  assert (Hbr : count_char c "<br/>" = 1%nat) by (destruct Hc; subst c; reflexivity).
  rewrite Hbr, Nat.mul_1_r. f_equal.
  induction (splitlines s) as [|l ls IH]; [reflexivity|].
  cbn [map]. rewrite !list_sum_cons, IH, (line_html_tags c _ Hc (parse_ansi_to_spans_styles l)).
  lia.
Qed.

(** X19. Whatever a frame holds, the characters [<] and [>] occur in its
    markup only where [ansi_to_html] writes a tag: twice for each run and
    once for each break between two lines.  No text of the log opens or
    closes a tag. *)
Theorem ansi_to_html_only_own_tags (s : string) :
  let runs := list_sum (map (fun l => List.length (parse_ansi_to_spans l))
                            (splitlines s)) in
  let breaks := pred (List.length (splitlines s)) in
  count_char "<" (ansi_to_html s) = (2 * runs + breaks)%nat
  /\ count_char ">" (ansi_to_html s) = (2 * runs + breaks)%nat.
Proof.
  cbv zeta. split; apply ansi_to_html_tags; [now left | now right].
Qed.

(** ** Lines that carry no number *)

Fixpoint no_digit (s : string) : bool :=
  match s with
  | "" => true
  | String c s' => negb (Str.is_digit c) && no_digit s'
  end.

Lemma no_digit_app (a b : string) :
  no_digit (a ++ b) = no_digit a && no_digit b.
Proof.
  induction a as [|c a IH]; [reflexivity|]. cbn [append no_digit].
  now rewrite IH, andb_assoc.
Qed.

Lemma no_digit_suffix (t s : string) :
  suffix t s -> no_digit s = true -> no_digit t = true.
Proof.
  intros [pre E] H. subst s. rewrite no_digit_app in H.
  now apply andb_prop in H.
Qed.

Lemma lower_char_digit (c : ascii) :
  Str.is_digit (Str.lower_char c) = Str.is_digit c.
Proof. destruct c as [[] [] [] [] [] [] [] []]; vm_compute; reflexivity. Qed.

Lemma no_digit_lower (s : string) : no_digit (Str.lower s) = no_digit s.
Proof.
  induction s as [|c s IH]; [reflexivity|]. cbn [Str.lower no_digit].
  now rewrite lower_char_digit, IH.
Qed.

Lemma no_digit_rstrip (s : string) :
  no_digit s = true -> no_digit (Str.rstrip s) = true.
Proof.
  induction s as [|c s IH]; [reflexivity|]. cbn [no_digit Str.rstrip].
  intros H. apply andb_prop in H. destruct H as [Hc H]. specialize (IH H).
  destruct (Str.rstrip s) as [|a r].
  - destruct (Str.is_space c); [reflexivity|]. cbn [no_digit]. now rewrite Hc.
  - cbn [no_digit] in *. now rewrite Hc, IH.
Qed.

Lemma no_digit_strip_lower (ln : string) :
  no_digit ln = true -> no_digit (Str.lower (Str.strip ln)) = true.
Proof.
  intros H. rewrite no_digit_lower. unfold Str.strip. apply no_digit_rstrip.
  exact (no_digit_suffix _ _ (lstrip_suffix ln) H).
Qed.

Lemma digits1_no_digit (s : string) : no_digit s = true -> Re.digits1 s = None.
Proof.
  intros H. unfold Re.digits1. destruct s as [|c s]; [reflexivity|].
  cbn [no_digit] in H. apply andb_prop in H. destruct H as [Hc _].
  cbn [Str.span]. apply negb_true_iff in Hc. now rewrite Hc.
Qed.

Lemma search_none {A} (f : string -> option A) (s : string) :
  (forall t, suffix t s -> f t = None) -> Re.search f s = None.
Proof.
  induction s as [|c s IH]; intros H; cbn [Re.search].
  - now rewrite (H "" (suffix_refl _)).
  - rewrite (H _ (suffix_refl _)). apply IH. intros t Ht. apply H.
    now apply suffix_cons.
Qed.

Lemma lit_exact_suffix (p : string) : forall s r,
  Re.lit_exact p s = Some r -> suffix r s.
Proof.
  induction p as [|a p IH]; intros s r H.
  - destruct s; inversion H; apply suffix_refl.
  - destruct s as [|b s]; [discriminate H|]. cbn [Re.lit_exact] in H.
    destruct (Ascii.eqb a b); [|discriminate H]. apply suffix_cons. now apply IH.
Qed.

Lemma eq_number_no_digit (t : string) : no_digit t = true -> eq_number t = None.
Proof.
  intros H. unfold eq_number, Re.and_then.
  destruct (Re.lit_exact "=" (Re.ws0 t)) as [r|] eqn:E; [|reflexivity].
  apply lit_exact_suffix in E.
  assert (S1 : suffix (Re.ws0 r) t).
  { eauto using suffix_trans, ws0_suffix. }
  now rewrite (digits1_no_digit _ (no_digit_suffix _ _ S1 H)).
Qed.

Lemma opt_eq_number_no_digit (t : string) :
  no_digit t = true -> opt_eq_number t = None.
Proof.
  intros H. unfold opt_eq_number, Re.and_then. cbv zeta.
  assert (S0 : suffix (Re.opt (Re.lit_exact "=") (Re.ws0 t)) (Re.ws0 t)).
  { apply opt_suffix. intros r. apply lit_exact_suffix. }
  assert (S1 : suffix (Re.ws0 (Re.opt (Re.lit_exact "=") (Re.ws0 t))) t).
  { eauto using suffix_trans, ws0_suffix. }
  now rewrite (digits1_no_digit _ (no_digit_suffix _ _ S1 H)).
Qed.

Lemma search_number_no_digit (s : string) :
  no_digit s = true -> search_number s = None.
Proof.
  intros H. unfold search_number. rewrite search_none; [reflexivity|].
  intros t Ht. apply digits1_no_digit. exact (no_digit_suffix _ _ Ht H).
Qed.

Lemma search_extinguished_no_digit (s : string) :
  no_digit s = true -> search_extinguished s = None.
Proof.
  intros H. unfold search_extinguished. apply search_none. intros t Ht.
  unfold Re.and_then. destruct (Re.lit_exact "extinguished" t) as [r|] eqn:E;
    [|reflexivity].
  apply eq_number_no_digit. apply lit_exact_suffix in E.
  exact (no_digit_suffix _ _ (suffix_trans _ _ _ E Ht) H).
Qed.

Lemma search_natural_no_digit (s : string) :
  no_digit s = true -> search_natural s = None.
Proof.
  intros H. unfold search_natural. apply search_none. intros t Ht.
  assert (N : forall p, (r <-? Re.lit_exact p t ;; opt_eq_number r) = None).
  { intros p. unfold Re.and_then. destruct (Re.lit_exact p t) as [r|] eqn:E;
      [|reflexivity].
    apply opt_eq_number_no_digit. apply lit_exact_suffix in E.
    exact (no_digit_suffix _ _ (suffix_trans _ _ _ E Ht) H). }
  now rewrite !N.
Qed.

Lemma scan_line_no_digit (acc : option Z * option Z) (ln : string) :
  no_digit ln = true -> scan_line acc ln = acc.
Proof.
  intros H. apply no_digit_strip_lower in H. unfold scan_line.
  destruct acc as [nb ex]. cbv zeta.
  rewrite (search_number_no_digit _ H), (search_extinguished_no_digit _ H),
    (search_natural_no_digit _ H). unfold or_keep.
  repeat match goal with |- context [if ?b then _ else _] => destruct b end;
    reflexivity.
Qed.

(** X20. The two counters of a frame are taken from numbers only: when none
    of the five lines after the header holds a decimal digit, the frame has
    neither a natural-burnouts nor an extinguished value, whatever words
    these lines hold. *)
Theorem block_metrics_need_numbers (block : string) :
  Forall (fun ln => no_digit ln = true) (list_slice (splitlines block) 1 6) ->
  snd (fst (block_metrics block)) = None /\ snd (block_metrics block) = None.
Proof.
  intros H. unfold block_metrics. cbv zeta.
  assert (F : forall l acc, Forall (fun ln => no_digit ln = true) l ->
                            fold_left scan_line l acc = acc).
  { induction l as [|ln l IH]; intros acc Hl; [reflexivity|].
    cbn [fold_left]. rewrite (scan_line_no_digit acc ln (Forall_inv Hl)).
    apply IH. exact (Forall_inv_tail Hl). }
  rewrite (F _ _ H). split; reflexivity.
Qed.

Definition sample_wordy_block : string :=
  header_line 4 17 ++ LF ++ "Natural burnouts: none" ++ LF ++ "extinguished= n/a".

Lemma block_metrics_need_numbers_witness :
  Forall (fun ln => no_digit ln = true)
         (list_slice (splitlines sample_wordy_block) 1 6)
  /\ snd (fst (block_metrics sample_wordy_block)) = None
  /\ snd (block_metrics sample_wordy_block) = None.
Proof.
  assert (H : Forall (fun ln => no_digit ln = true)
                     (list_slice (splitlines sample_wordy_block) 1 6)).
  { vm_compute. repeat constructor. }
  split; [exact H | apply (block_metrics_need_numbers sample_wordy_block H)].
Defined.
